(** * DNS record lookup tool: domain cleaning, validation and record aggregation

    A shallow embedding of [src/dns_lookup_class.py] (class [DNSLookupTool]:
    [clean_domain], [validate_domain], [fetch_record_type],
    [get_dns_records]) and of the twin functions of [src/dns_record.py].

    Python [str] values are sequences of Unicode code points; they are
    modelled as lists of code points ([N]).  The external resolver
    ([dns.resolver.Resolver.resolve]) is a parameter of the development: a
    function over an abstract world state which answers with records or with
    one of the three exception classes the code distinguishes. *)

From Stdlib Require Import List NArith ZArith Bool Arith Lia String Ascii FinFun.
From Stdlib Require Import DecimalString.
Import ListNotations.

Set Implicit Arguments.

(** ** Python strings *)

Module PyStr.

Definition char := N.
Definition str := list char.

(** A source literal (ASCII only) as a [str]. *)
Definition lit (s : string) : str := map N_of_ascii (list_ascii_of_string s).

Definition chr_eqb (a b : char) : bool := N.eqb a b.

Fixpoint str_eqb (a b : str) : bool :=
  match a, b with
  | [], [] => true
  | x :: a', y :: b' => chr_eqb x y && str_eqb a' b'
  | _, _ => false
  end.

(** [str.isspace] on one code point (CPython's [Py_UNICODE_ISSPACE]). *)
Definition isspace (c : char) : bool :=
  ((9 <=? c) && (c <=? 13) || (28 <=? c) && (c <=? 32)
   || (c =? 133) || (c =? 160) || (c =? 5760)
   || (8192 <=? c) && (c <=? 8202)
   || (c =? 8232) || (c =? 8233) || (c =? 8239) || (c =? 8287)
   || (c =? 12288))%N.

Fixpoint lstrip (s : str) : str :=
  match s with
  | [] => []
  | c :: t => if isspace c then lstrip t else s
  end.

Definition rstrip (s : str) : str := rev (lstrip (rev s)).

(** [s.strip()] *)
Definition strip (s : str) : str := rstrip (lstrip s).

(** [s.startswith(p)] *)
Fixpoint startswith (p s : str) : bool :=
  match p, s with
  | [], _ => true
  | _ :: _, [] => false
  | x :: p', y :: s' => chr_eqb x y && startswith p' s'
  end.

(** [s.replace(old, new)] for a non-empty [old]: every occurrence found by
    one left-to-right scan is replaced, and the scan resumes after the
    occurrence.  [skip] counts the characters of a found occurrence that are
    still to be passed over. *)
Fixpoint replace_from (old new : str) (skip : nat) (s : str) : str :=
  match s with
  | [] => []
  | c :: t =>
      match skip with
      | S k => replace_from old new k t
      | O =>
          if startswith old s
          then new ++ replace_from old new (pred (List.length old)) t
          else c :: replace_from old new 0 t
      end
  end.

Definition replace (old new s : str) : str := replace_from old new 0 s.

(** [s.split(sep)] for a one-character separator. *)
Fixpoint split (sep : char) (s : str) : list str :=
  match s with
  | [] => [[]]
  | c :: t =>
      if chr_eqb c sep then [] :: split sep t
      else match split sep t with
           | h :: r => (c :: h) :: r
           | [] => [[c]]
           end
  end.

(** [sub in s] *)
Fixpoint contains (sub s : str) : bool :=
  startswith sub s
  || match s with
     | [] => false
     | _ :: t => contains sub t
     end.

(** Number of positions of [s] at which an occurrence of [sub] starts. *)
Fixpoint occurrences (sub s : str) : nat :=
  match s with
  | [] => 0
  | _ :: t => (if startswith sub s then 1 else 0) + occurrences sub t
  end.

(** Truth value of an optional string: [None] and [''] are false. *)
Definition truthy (d : option str) : bool :=
  match d with
  | None => false
  | Some [] => false
  | Some (_ :: _) => true
  end.

End PyStr.

Import PyStr.

(** ** [clean_domain] *)

Definition clean_domain (domain : option str) : option str :=
  match domain with
  | None => None
  | Some [] => Some []
  | Some d =>
      let d := strip d in
      let d := replace (lit "https://") [] (replace (lit "http://") [] d) in
      let d := replace (lit "www.") [] d in
      let d := nth 0 (split 47%N d) [] in
      Some d
  end.

(** The www-strip step as the specification words it: only the first
    occurrence of [old] is removed. *)
Fixpoint remove_first (old s : str) : str :=
  match s with
  | [] => []
  | c :: t =>
      if startswith old s then skipn (List.length old) s
      else c :: remove_first old t
  end.

(** [clean_domain] as the specification words it: the same steps in the
    same order, with [remove_first] in the www-strip step. *)
Definition clean_domain_www_first (domain : option str) : option str :=
  match domain with
  | None => None
  | Some [] => Some []
  | Some d =>
      let d := strip d in
      let d := replace (lit "https://") [] (replace (lit "http://") [] d) in
      let d := remove_first (lit "www.") d in
      let d := nth 0 (split 47%N d) [] in
      Some d
  end.

(** ** The fragment of Python's [re] used by [validate_domain]

    A backtracking matcher in the list-of-successes style: matching a pattern
    at an input position yields every position at which the match can end, in
    the order the engine tries them (greedy first).  [re.match] succeeds iff
    some way of matching exists. *)

Module Re.

Record input := mkInput { pos : nat; rest : str }.

Inductive regex :=
| AT_BEGINNING                                  (* ^ *)
| AT_END                                        (* $ *)
| IN (ranges : list (char * char))              (* [a-zA-Z0-9\-] *)
| LITERAL (c : char)                            (* \. *)
| SEQ (a b : regex)
| MAX_REPEAT (lo : nat) (hi : option nat) (r : regex). (* ?, *, {lo,hi} *)

Definition in_ranges (ranges : list (char * char)) (c : char) : bool :=
  existsb (fun r => (fst r <=? c)%N && (c <=? snd r)%N) ranges.

(** [$] without [re.MULTILINE]: at the end of the string, or just before a
    newline that is the last character of the string. *)
Definition at_end (s : str) : bool :=
  match s with
  | [] => true
  | [c] => chr_eqb c 10%N
  | _ => false
  end.

(** Between [lo] and [n] iterations of [step], more iterations first. *)
Fixpoint rep (step : input -> list input) (lo n : nat) (i : input) : list input :=
  match n with
  | O => if Nat.eqb lo 0 then [i] else []
  | S n' =>
      flat_map (rep step (pred lo) n') (step i)
      ++ (if Nat.eqb lo 0 then [i] else [])
  end.

Fixpoint run (r : regex) (i : input) : list input :=
  match r with
  | AT_BEGINNING => if Nat.eqb (pos i) 0 then [i] else []
  | AT_END => if at_end (rest i) then [i] else []
  | IN ranges =>
      match rest i with
      | c :: t => if in_ranges ranges c then [mkInput (S (pos i)) t] else []
      | [] => []
      end
  | LITERAL x =>
      match rest i with
      | c :: t => if chr_eqb c x then [mkInput (S (pos i)) t] else []
      | [] => []
      end
  | SEQ a b => flat_map (run b) (run a i)
  | MAX_REPEAT lo hi r' =>
      (* an unbounded repeat never needs more than [lo + len] iterations *)
      let n := match hi with
               | Some h => h
               | None => lo + List.length (rest i)
               end in
      rep (run r') lo n i
  end.

(** [re.match(pattern, s)]: the end of the first match found, or [None]. *)
Definition re_match (pattern : regex) (s : str) : option input :=
  hd_error (run pattern (mkInput 0 s)).

(** *** Vocabulary for reasoning about the matcher *)

(** From [i], consuming exactly [l] leads to [j]. *)
Definition advance (i : input) (l : str) (j : input) : Prop :=
  rest i = l ++ rest j /\ pos j = pos i + List.length l.

(** [step] is a matcher for the language [L]: its results are the inputs
    reached by consuming a word of [L]. *)
Definition recognises (step : input -> list input) (L : str -> Prop) : Prop :=
  forall i j, In j (step i) <-> exists l, advance i l j /\ L l.

Fixpoint iter (step : input -> list input) (k : nat) (i j : input) : Prop :=
  match k with
  | O => i = j
  | S k' => exists x, In x (step i) /\ iter step k' x j
  end.

(** One character satisfying [P]. *)
Definition one_of (P : char -> bool) (l : str) : Prop :=
  exists c, l = [c] /\ P c = true.

(** A word of [L1] followed by a word of [L2]. *)
Definition cat (L1 L2 : str -> Prop) (l : str) : Prop :=
  exists a b, l = a ++ b /\ L1 a /\ L2 b.

(** Between [lo] and [hi] words of [L], one after the other. *)
Definition pieces (lo : nat) (hi : option nat) (L : str -> Prop) (l : str)
  : Prop :=
  exists ls,
    lo <= List.length ls
    /\ match hi with Some h => List.length ls <= h | None => True end
    /\ Forall L ls /\ l = List.concat ls.

End Re.

Import Re.

(** ** [validate_domain] *)

(** [[a-zA-Z0-9]] and [[a-zA-Z0-9\-]] *)
Definition alnum_class : regex := IN [(97, 122); (65, 90); (48, 57)]%N.
Definition alnum_hyphen_class : regex := IN [(97, 122); (65, 90); (48, 57); (45, 45)]%N.

(** [[a-zA-Z0-9]([a-zA-Z0-9\-]{0,61}[a-zA-Z0-9])?] *)
Definition label_pattern : regex :=
  SEQ alnum_class
      (MAX_REPEAT 0 (Some 1)
         (SEQ (MAX_REPEAT 0 (Some 61) alnum_hyphen_class) alnum_class)).

(** [r'^[a-zA-Z0-9]([a-zA-Z0-9\-]{0,61}[a-zA-Z0-9])?(\.[a-zA-Z0-9]([a-zA-Z0-9\-]{0,61}[a-zA-Z0-9])?)*$'] *)
Definition domain_pattern : regex :=
  SEQ AT_BEGINNING
      (SEQ label_pattern
           (SEQ (MAX_REPEAT 0 None (SEQ (LITERAL 46%N) label_pattern))
                AT_END)).

Definition validate_domain (domain : option str) : bool :=
  match domain with
  | None => false
  | Some d =>
      if negb (truthy domain) || (253 <? List.length d) then false
      else match re_match domain_pattern d with
           | Some _ => true
           | None => false
           end
  end.

(** ** The label grammar, as the specification words it

    One or more dot-separated labels, each label 1-63 characters,
    alphanumeric with optional interior hyphens, first and last character of
    each label alphanumeric; the whole name non-empty and at most 253
    characters. *)

Module Grammar.

Definition is_alnum (c : char) : bool :=
  ((97 <=? c) && (c <=? 122) || (65 <=? c) && (c <=? 90)
   || (48 <=? c) && (c <=? 57))%N.

Definition is_hyphen (c : char) : bool := (c =? 45)%N.

Definition label_ok (l : str) : bool :=
  (1 <=? List.length l) && (List.length l <=? 63)
  && forallb (fun c => is_alnum c || is_hyphen c) l
  && match l with c :: _ => is_alnum c | [] => false end
  && match rev l with c :: _ => is_alnum c | [] => false end.

Definition labels_ok (d : str) : bool := forallb label_ok (split 46%N d).

Definition valid_name (domain : option str) : bool :=
  match domain with
  | None => false
  | Some d =>
      negb (Nat.eqb (List.length d) 0) && (List.length d <=? 253) && labels_ok d
  end.

(** ["." + l] for each label, one after the other. *)
Definition dotted (labels : list str) : str :=
  List.concat (map (cons 46%N) labels).

(** A label, by its shape: one alphanumeric character, or two of them
    around at most 61 alphanumeric characters or hyphens. *)
Definition label_shape (l : str) : Prop :=
  exists c, is_alnum c = true
    /\ (l = [c]
        \/ exists mid d,
             l = c :: mid ++ [d]
             /\ List.length mid <= 61
             /\ forallb (fun x => is_alnum x || is_hyphen x) mid = true
             /\ is_alnum d = true).

End Grammar.

(** ** The resolver and the records it returns *)

(** An [rdata] object of the resolver library: every one has [to_text()];
    MX ones have [preference] and [exchange], SOA ones the seven SOA
    attributes (host names are kept as their [to_text()]). *)
Inductive rdata :=
| RData (to_text : str)
| RData_MX (preference : Z) (exchange : str) (to_text : str)
| RData_SOA (mname rname : str) (serial refresh retry expire minimum : Z)
            (to_text : str).

(** What one [resolve(website, record_type)] call does: it returns an answer
    or raises. *)
Inductive answer :=
| Answer (records : list rdata)
| NXDOMAIN          (* raise dns.resolver.NXDOMAIN *)
| NoAnswer          (* raise dns.resolver.NoAnswer *)
| OtherError.       (* any other Exception *)

Class Resolver := {
  world : Type;
  resolve : str -> str -> world -> answer * world
}.

(** An element of a result list: a string, or the dict built for MX or SOA. *)
Inductive record :=
| Text (s : str)
| MXRecord (priority : Z) (exchange : str)
| SOARecord (mname rname : str) (serial refresh retry expire minimum : Z).

(** One resolver call, as issued, with what came back. *)
Record call := mkCall { c_website : str; c_type : str; c_answer : answer }.

(** ** Python dicts: insertion-ordered, assignment to a present key keeps
    its place. *)

Module Dict.

Definition dict (V : Type) := list (str * V).

Fixpoint set {V} (k : str) (v : V) (d : dict V) : dict V :=
  match d with
  | [] => [(k, v)]
  | (k', v') :: d' =>
      if str_eqb k' k then (k', v) :: d' else (k', v') :: set k v d'
  end.

Fixpoint get {V} (k : str) (d : dict V) : option V :=
  match d with
  | [] => None
  | (k', v') :: d' => if str_eqb k' k then Some v' else get k d'
  end.

Definition keys {V} (d : dict V) : list str := map fst d.
Definition values {V} (d : dict V) : list V := map snd d.

End Dict.

Definition records_dict := Dict.dict (list record).

(** [f'{record_type}_Records'] *)
Definition records_key (record_type : str) : str := record_type ++ lit "_Records".

(** [self.config], the part the lookup reads: the list
    [self.config['dns_settings']['record_types']], and what evaluating
    [self.config['display_settings']['show_progress']] gives: the truth
    value found there, or [None] when the subscripts raise (a
    [display_settings] that is not a dict, which [load_config] lets through,
    or a key that is missing).  The configurations covered are those whose
    [record_types] can be read and is a list of strings. *)
Record config := mkConfig {
  record_types : list str;
  show_progress : option bool
}.

Definition default_config : config :=
  mkConfig (map lit ["A"; "AAAA"; "CNAME"; "MX"; "NS"; "TXT"; "SOA"]%string)
           (Some true).

(** ** [fetch_record_type] and [get_dns_records]

    What is printed and logged is left out; the reads of the configuration
    that decide whether to print are kept, since a read that raises changes
    what is returned and which resolver calls are made.  The state threaded
    through is the resolver's world together with the list of calls issued
    so far, newest last. *)

Section Lookup.

Context {R : Resolver}.

Record state := mkState { st_world : world; st_calls : list call }.

(** [for x in records: record_list.append(f(x))]; an attribute that is
    missing raises [AttributeError] ([None] here). *)
Fixpoint decode_all (f : rdata -> option record) (records : list rdata)
  : option (list record) :=
  match records with
  | [] => Some []
  | x :: xs =>
      match f x with
      | None => None
      | Some y =>
          match decode_all f xs with
          | None => None
          | Some ys => Some (y :: ys)
          end
      end
  end.

Definition decode_mx (x : rdata) : option record :=
  match x with
  | RData_MX preference exchange _ => Some (MXRecord preference exchange)
  | _ => None
  end.

Definition decode_soa (x : rdata) : option record :=
  match x with
  | RData_SOA mname rname serial refresh retry expire minimum _ =>
      Some (SOARecord mname rname serial refresh retry expire minimum)
  | _ => None
  end.

Definition decode_text (x : rdata) : option record :=
  match x with
  | RData t => Some (Text t)
  | RData_MX _ _ t => Some (Text t)
  | RData_SOA _ _ _ _ _ _ _ t => Some (Text t)
  end.

(** [not quiet and self.config['display_settings']['show_progress']]:
    nothing is read when [quiet] is set; [None] when the read raises. *)
Definition progress_wanted (cfg : config) (quiet : bool) : option bool :=
  if quiet then Some false else show_progress cfg.

(** Returns [None] for Python's [None], [Some l] for a list.  The first
    statement of the [try] evaluates [progress_wanted]; when that raises,
    [except Exception] returns [[]] and [resolve] has not been called.  The
    later evaluations of the same condition find the same configuration, so
    they cannot raise once the first one has not. *)
Definition fetch_record_type (cfg : config) (website record_type : str)
    (quiet : bool) (st : state) : option (list record) * state :=
  match progress_wanted cfg quiet with
  | None => (Some [], st)                 (* except Exception *)
  | Some _ =>
      let (a, w') := resolve website record_type (st_world st) in
      let st' := mkState w' (st_calls st ++ [mkCall website record_type a]) in
      match a with
      | Answer records =>
          let decoded :=
            if str_eqb record_type (lit "MX")
            then decode_all decode_mx records
            else if str_eqb record_type (lit "SOA")
            then decode_all decode_soa records
            else decode_all decode_text records in
          match decoded with
          | Some record_list => (Some record_list, st')
          | None => (Some [], st')        (* except Exception *)
          end
      | NXDOMAIN => (None, st')
      | NoAnswer => (Some [], st')
      | OtherError => (Some [], st')
      end
  end.

(** The [for record_type in record_types] loop, with its two locals
    [dns_record] and [domain_exists]; [None] is the early [return None]. *)
Fixpoint fetch_all (cfg : config) (website : str) (types : list str)
    (quiet : bool) (dns_record : records_dict) (domain_exists : bool)
    (st : state) : option (records_dict * bool) * state :=
  match types with
  | [] => (Some (dns_record, domain_exists), st)
  | record_type :: types' =>
      let (result, st') :=
        fetch_record_type cfg website record_type quiet st in
      match result with
      | None => (None, st')
      | Some ((_ :: _) as found) =>
          fetch_all cfg website types' quiet
            (Dict.set (records_key record_type) found dns_record) true st'
      | Some [] =>
          fetch_all cfg website types' quiet
            (Dict.set (records_key record_type) [] dns_record) domain_exists st'
      end
  end.

(** [if not record_types: record_types = self.config['dns_settings']['record_types']] *)
Definition types_to_query (cfg : config) (requested : option (list str))
  : list str :=
  match requested with
  | None | Some [] => record_types cfg
  | Some l => l
  end.

(** [get_dns_records] with the final value of [domain_exists] kept next to
    the returned dict (it decides whether the "exists but has no standard DNS
    records" warning is printed). *)
Definition get_dns_records_flag (cfg : config) (website : option str)
    (requested : option (list str)) (quiet : bool) (st : state)
  : option (records_dict * bool) * state :=
  let website := clean_domain website in
  if negb (validate_domain website) then (None, st)
  else
    match website with
    | None => (None, st)
    | Some w =>
        fetch_all cfg w (types_to_query cfg requested) quiet [] false st
    end.

(** What the caller gets back: the dict, or [None]. *)
Definition get_dns_records (cfg : config) (website : option str)
    (requested : option (list str)) (quiet : bool) (st : state)
  : option records_dict * state :=
  let (r, st') := get_dns_records_flag cfg website requested quiet st in
  (option_map fst r, st').

(** The calls issued between two states. *)
Definition calls_since (st st' : state) : list call :=
  skipn (List.length (st_calls st)) (st_calls st').

End Lookup.

(** What [fetch_record_type] returns for a given resolver answer, when it
    gets as far as calling the resolver. *)
Definition result_of (record_type : str) (a : answer) : option (list record) :=
  match a with
  | Answer records =>
      let decoded :=
        if str_eqb record_type (lit "MX") then decode_all decode_mx records
        else if str_eqb record_type (lit "SOA") then decode_all decode_soa records
        else decode_all decode_text records in
      match decoded with
      | Some record_list => Some record_list
      | None => Some []
      end
  | NXDOMAIN => None
  | NoAnswer => Some []
  | OtherError => Some []
  end.

Definition is_nxdomain (a : answer) : bool :=
  match a with NXDOMAIN => true | _ => false end.

(** The NoData and TransientError outcomes of the specification. *)
Definition is_nodata_or_fault (a : answer) : bool :=
  match a with NoAnswer | OtherError => true | _ => false end.

Definition nonempty {A} (l : list A) : bool :=
  match l with [] => false | _ :: _ => true end.

(** The overall outcome of a lookup, read off the returned value. *)
Inductive outcome := DomainFailure | Found | FoundEmpty.

Definition outcome_of (r : option records_dict) : outcome :=
  match r with
  | None => DomainFailure
  | Some d => if existsb nonempty (Dict.values d) then Found else FoundEmpty
  end.

(** Does every fetch of this lookup stop at the read of [show_progress]? *)
Definition progress_read_raises (cfg : config) (quiet : bool) : bool :=
  match progress_wanted cfg quiet with
  | None => true
  | Some _ => false
  end.

(** The loop of [get_dns_records] seen from outside: the calls it issues
    for the types still to do, and what it returns.  [silent] says that the
    fetches stop before the resolver ([progress_read_raises]); each type
    then gets the empty list without a call. *)
Inductive loop_trace (silent : bool) (website : str)
  : list str -> records_dict -> bool -> list call
    -> option (records_dict * bool) -> Prop :=
| loop_done d f :
    loop_trace silent website [] d f [] (Some (d, f))
| loop_abort t ts d f :
    silent = false ->
    loop_trace silent website (t :: ts) d f [mkCall website t NXDOMAIN] None
| loop_next t ts d f a l new res :
    silent = false ->
    result_of t a = Some l ->
    loop_trace silent website ts (Dict.set (records_key t) l d)
      (f || nonempty l) new res ->
    loop_trace silent website (t :: ts) d f (mkCall website t a :: new) res
| loop_skip t ts d f new res :
    silent = true ->
    loop_trace silent website ts (Dict.set (records_key t) [] d) f new res ->
    loop_trace silent website (t :: ts) d f new res.

(** Keys in order of first insertion. *)
Definition insert_key (acc : list str) (k : str) : list str :=
  if existsb (str_eqb k) acc then acc else acc ++ [k].

Definition first_occurrences (l : list str) : list str :=
  fold_left insert_key l [].

(** A resolver that plays a fixed script of answers, one per call, and
    answers [NoAnswer] when the script is over. *)
Definition scripted : Resolver :=
  {| world := list answer;
     resolve := fun _ _ w =>
       match w with
       | a :: w' => (a, w')
       | [] => (NoAnswer, [])
       end |}.

(** ** Further vocabulary for the properties of the lookup *)

(** [x.to_text()] *)
Definition rdata_to_text (x : rdata) : str :=
  match x with
  | RData t => t
  | RData_MX _ _ t => t
  | RData_SOA _ _ _ _ _ _ _ t => t
  end.

(** Did this call bring back at least one record? *)
Definition call_found (c : call) : bool :=
  match result_of (c_type c) (c_answer c) with
  | Some (_ :: _) => true
  | _ => false
  end.

(** The characters a name of the grammar is made of. *)
Definition name_char (c : char) : bool :=
  Grammar.is_alnum c || Grammar.is_hyphen c || chr_eqb c 46%N.

(** ** The script [dns_record.py]

    The same lookup as free functions: [get_dns_records] validates the name
    it is given (its caller [main] has cleaned it), always asks for the
    seven record types, and [main] filters the result afterwards when
    [--records] was given. *)

Module Script.

Section Lookup.

Context {R : Resolver}.

(** The script's fetch reads no configuration: its [quiet] only decides
    what is printed, so the resolver is always called. *)
Definition fetch_record_type (website record_type description emoji : str)
    (st : state) : option (list record) * state :=
  let (a, w') := resolve website record_type (st_world st) in
  let st' := mkState w' (st_calls st ++ [mkCall website record_type a]) in
  match a with
  | Answer records =>
      let decoded :=
        if str_eqb record_type (lit "MX") then decode_all decode_mx records
        else if str_eqb record_type (lit "SOA") then decode_all decode_soa records
        else decode_all decode_text records in
      match decoded with
      | Some record_list => (Some record_list, st')
      | None => (Some [], st')
      end
  | NXDOMAIN => (None, st')
  | NoAnswer => (Some [], st')
  | OtherError => (Some [], st')
  end.

(** [(record_type, description, emoji)] *)
Definition record_types : list (str * str * str) :=
  [(lit "A", lit "IPv4 Addresses", [128205%N]);
   (lit "AAAA", lit "IPv6 Addresses", [128205%N]);
   (lit "CNAME", lit "Canonical Names", [128279%N]);
   (lit "MX", lit "Mail Servers", [128231%N]);
   (lit "NS", lit "Name Servers", [127760%N]);
   (lit "TXT", lit "Text Records", [128221%N]);
   (lit "SOA", lit "Start of Authority", [9889%N])].

Fixpoint fetch_all (website : str) (types : list (str * str * str))
    (dns_record : records_dict) (domain_exists : bool) (st : state)
  : option (records_dict * bool) * state :=
  match types with
  | [] => (Some (dns_record, domain_exists), st)
  | (record_type, description, emoji) :: types' =>
      let (result, st') :=
        fetch_record_type website record_type description emoji st in
      match result with
      | None => (None, st')
      | Some ((_ :: _) as found) =>
          fetch_all website types'
            (Dict.set (records_key record_type) found dns_record) true st'
      | Some [] =>
          fetch_all website types'
            (Dict.set (records_key record_type) [] dns_record) domain_exists st'
      end
  end.

Definition get_dns_records (website : option str) (st : state)
  : option records_dict * state :=
  if negb (validate_domain website) then (None, st)
  else
    match website with
    | None => (None, st)
    | Some w =>
        let (r, st') := fetch_all w record_types [] false st in
        (option_map fst r, st')
    end.

End Lookup.

(** [main], "Filter records if specific types requested":
    [for record_type in args.records: if key in dns_record:
     filtered_records[key] = dns_record[key]] *)
Definition filter_step (dns_record filtered : records_dict)
    (record_type : str) : records_dict :=
  let key := records_key record_type in
  match Dict.get key dns_record with
  | Some v => Dict.set key v filtered
  | None => filtered
  end.

Definition filter_records (requested : list str) (dns_record : records_dict)
  : records_dict :=
  fold_left (filter_step dns_record) requested [].

End Script.

(** ** Display helpers of [display_records] *)

Module Display.

(** [s[:stop]] *)
Definition slice_until (stop : Z) (s : str) : str :=
  if (0 <=? stop)%Z then firstn (Z.to_nat stop) s
  else firstn (List.length s - Z.to_nat (- stop)) s.

(** [f"{s:<width}"] *)
Definition ljust (width : nat) (s : str) : str :=
  s ++ repeat 32%N (width - List.length s).

(** [txt if len(txt) <= max_length else txt[:max_length-3] + "..."]
    ([max_length] is 70 in the script, the configured [max_txt_length] in
    the class). *)
Definition display_txt (max_length : Z) (txt : str) : str :=
  if (Z.of_nat (List.length txt) <=? max_length)%Z then txt
  else slice_until (max_length - 3) txt ++ lit "...".

(** [mx['exchange'][:45] + "..." if len(mx['exchange']) > 45 else mx['exchange']] *)
Definition mx_server (exchange : str) : str :=
  if 45 <? List.length exchange then firstn 45 exchange ++ lit "..."
  else exchange.

(** The server cell of a row of the MX table: [f"{server:<47}"]. *)
Definition mx_server_cell (exchange : str) : str :=
  ljust 47 (mx_server exchange).

Definition standard_types : list str :=
  map lit ["A"; "AAAA"; "CNAME"; "MX"; "NS"; "TXT"; "SOA"]%string.

(** [any(dns_record.get(f'{record_type}_Records') for record_type in [...])] *)
Definition has_records (dns_record : records_dict) : bool :=
  existsb
    (fun record_type =>
       match Dict.get (records_key record_type) dns_record with
       | Some (_ :: _) => true
       | _ => false
       end)
    standard_types.

(** [create_table_row] of the script, for columns that are strings; the
    bar is U+2502. *)
Definition create_table_row (columns : list str) (widths : list nat) : str :=
  fold_left
    (fun row cw => row ++ [32%N] ++ ljust (snd cw) (fst cw) ++ [32%N; 9474%N])
    (combine columns widths) [9474%N].

End Display.

(** ** The rows written by [export_to_csv]

    The rows handed to [csv.writer], one list of cells per row; opening the
    file and the CSV encoding of a row are the library's. *)

Module Csv.




End Csv.

(** ** [load_config]

    What [json.load] returns, and the merge with the defaults.  Operations
    on a value of the wrong type raise [TypeError] ([None] here), which
    [load_config] catches to fall back on the defaults. *)

Module Config.

#[warnings="-register-all"]
Inductive json :=
| JNull
| JBool (b : bool)
| JNum (literal : str)        (* a number, as written; never inspected *)
| JStr (s : str)
| JList (items : list json)
| JDict (entries : list (str * json)).

(** [k in c] for a string [k] *)
Definition key_in (k : str) (c : json) : option bool :=
  match c with
  | JDict d => Some (match Dict.get k d with Some _ => true | None => false end)
  | JList l =>
      Some (existsb (fun x => match x with
                              | JStr s => str_eqb s k
                              | _ => false
                              end) l)
  | JStr s => Some (contains k s)
  | JNull | JBool _ | JNum _ => None
  end.

(** [c[k]] for a string [k] ([None]: [KeyError] or [TypeError]) *)
Definition getitem (c : json) (k : str) : option json :=
  match c with
  | JDict d => Dict.get k d
  | _ => None
  end.

(** [c[k] = v] for a string [k] *)
Definition setitem (c : json) (k : str) (v : json) : option json :=
  match c with
  | JDict d => Some (JDict (Dict.set k v d))
  | _ => None
  end.

Definition default_config : list (str * list (str * json)) :=
  [(lit "dns_settings",
    [(lit "timeout", JNum (lit "10"));
     (lit "retries", JNum (lit "3"));
     (lit "default_nameserver", JNull);
     (lit "record_types",
      JList (map (fun t => JStr (lit t))
               ["A"; "AAAA"; "CNAME"; "MX"; "NS"; "TXT"; "SOA"]%string))]);
   (lit "display_settings",
    [(lit "use_colors", JBool true);
     (lit "max_txt_length", JNum (lit "70"));
     (lit "table_format", JBool true);
     (lit "show_progress", JBool true)]);
   (lit "export_settings",
    [(lit "json_indent", JNum (lit "2"));
     (lit "csv_delimiter", JStr (lit ","));
     (lit "include_timestamp", JBool true)]);
   (lit "logging",
    [(lit "level", JStr (lit "INFO"));
     (lit "file", JStr (lit "dns_lookup.log"));
     (lit "max_size_mb", JNum (lit "10"));
     (lit "backup_count", JNum (lit "3"));
     (lit "format",
      JStr (lit "%(asctime)s - %(name)s - %(levelname)s - %(message)s"))])].

Definition default_json : json :=
  JDict (map (fun sd => (fst sd, JDict (snd sd))) default_config).

(** [if key not in config[section]: config[section][key] = default] *)
Definition merge_key (section : str) (config : option json)
    (kv : str * json) : option json :=
  match config with
  | None => None
  | Some c =>
      match getitem c section with
      | None => None
      | Some sec =>
          match key_in (fst kv) sec with
          | None => None
          | Some true => Some c
          | Some false =>
              match setitem sec (fst kv) (snd kv) with
              | None => None
              | Some sec' => setitem c section sec'
              end
          end
      end
  end.

(** One turn of [for section in default_config]. *)
Definition merge_section (config : option json)
    (sd : str * list (str * json)) : option json :=
  match config with
  | None => None
  | Some c =>
      match key_in (fst sd) c with
      | None => None
      | Some false => setitem c (fst sd) (JDict (snd sd))
      | Some true => fold_left (merge_key (fst sd)) (snd sd) (Some c)
      end
  end.

Definition merge_with (defaults : list (str * list (str * json)))
    (config : json) : option json :=
  fold_left merge_section defaults (Some config).

(** [file] is what [json.load] produced, [None] when the file does not
    exist or cannot be read or parsed. *)
Definition load_config (file : option json) : json :=
  match file with
  | None => default_json
  | Some config =>
      match merge_with default_config config with
      | Some merged => merged
      | None => default_json
      end
  end.

(** What the merge amounts to on a section that is a dict: every default
    key that is missing is added, in the defaults' order. *)
Definition fill_defaults (defaults entries : list (str * json))
  : list (str * json) :=
  fold_left
    (fun e kv =>
       match Dict.get (fst kv) e with
       | Some _ => e
       | None => Dict.set (fst kv) (snd kv) e
       end)
    defaults entries.

(** ... and on a document that is a dict whose known sections are dicts. *)
Definition fill_sections (defaults : list (str * list (str * json)))
    (entries : list (str * json)) : list (str * json) :=
  fold_left
    (fun d sd =>
       match Dict.get (fst sd) d with
       | Some (JDict e) => Dict.set (fst sd) (JDict (fill_defaults (snd sd) e)) d
       | Some _ => d
       | None => Dict.set (fst sd) (JDict (snd sd)) d
       end)
    defaults entries.

(** The known sections of a document are dicts. *)
Definition sections_are_dicts (defaults : list (str * list (str * json)))
    (entries : list (str * json)) : Prop :=
  forall s v, In s (map fst defaults) -> Dict.get s entries = Some v ->
              exists e, v = JDict e.

Definition is_scalar (v : json) : bool :=
  match v with
  | JNull | JBool _ | JNum _ => true
  | _ => false
  end.

(** [config[section][key]] *)
Definition lookup2 (config : json) (section key : str) : option json :=
  match getitem config section with
  | Some sec => getitem sec key
  | None => None
  end.

End Config.

(** ** Fixtures, after [test_dns_lookup.py] *)

(** The test configuration: [record_types] is [["A", "MX", "NS"]],
    [show_progress] is [False]. *)
Definition test_config : config :=
  mkConfig (map lit ["A"; "MX"; "NS"]%string) (Some false).

(** The MX answer of [test_fetch_record_type_mx]. *)
Definition mx_answer : answer :=
  Answer [RData_MX 10%Z (lit "mail.example.com") (lit "10 mail.example.com")].

Definition example_com : option str := Some (lit "example.com").

(** A fresh state of the scripted resolver: nothing called yet. *)
Definition scripted_state (script : list answer) : @state scripted :=
  mkState (R := scripted) script [].

(** * Properties *)

(** ** Strings *)

Section StringFacts.

Lemma chr_eqb_eq (a b : char) : chr_eqb a b = true <-> a = b.
Proof. apply N.eqb_eq. Qed.

Lemma chr_eqb_refl (a : char) : chr_eqb a a = true.
Proof. apply N.eqb_refl. Qed.

Lemma str_eqb_eq (a b : str) : str_eqb a b = true <-> a = b.
Proof.
  revert b; induction a as [|x a IH]; intros [|y b]; simpl; split;
    try discriminate; try reflexivity.
  - rewrite andb_true_iff, chr_eqb_eq, IH. intros [-> ->]; reflexivity.
  - intros E; injection E as -> ->. rewrite chr_eqb_refl.
    apply IH; reflexivity.
Qed.

Lemma str_eqb_refl (a : str) : str_eqb a a = true.
Proof. apply str_eqb_eq; reflexivity. Qed.

Lemma str_eqb_neq (a b : str) : str_eqb a b = false <-> a <> b.
Proof.
  rewrite <- str_eqb_eq. destruct (str_eqb a b); split; congruence.
Qed.

Lemma startswith_iff (p s : str) :
  startswith p s = true <-> exists r, s = p ++ r.
Proof.
  revert s; induction p as [|x p IH]; intros s; simpl.
  - split; [intros _; exists s; reflexivity | reflexivity].
  - destruct s as [|y s].
    + split; [discriminate | intros [r E]; discriminate].
    + rewrite andb_true_iff, chr_eqb_eq, IH. split.
      * intros [-> [r ->]]. exists r; reflexivity.
      * intros [r E]; injection E as -> ->. split; eauto.
Qed.

Lemma startswith_app (p r : str) : startswith p (p ++ r) = true.
Proof. apply startswith_iff; eauto. Qed.

Lemma replace_from_skip (old new : str) (k : nat) (s : str) :
  replace_from old new k s = replace old new (skipn k s).
Proof.
  revert k; induction s as [|c t IH]; intros [|k]; try reflexivity.
  simpl. apply IH.
Qed.

(** The scan found an occurrence: it is replaced and the scan resumes
    behind it. *)
Lemma replace_hit (old new s : str) :
  old <> [] -> startswith old s = true ->
  replace old new s = new ++ replace old new (skipn (List.length old) s).
Proof.
  intros Hne Hs. destruct s as [|c t].
  - destruct old; [congruence | discriminate].
  - unfold replace at 1. simpl replace_from. rewrite Hs.
    rewrite replace_from_skip. destruct old; [congruence | reflexivity].
Qed.

Lemma replace_miss (old new : str) (c : char) (t : str) :
  startswith old (c :: t) = false ->
  replace old new (c :: t) = c :: replace old new t.
Proof.
  intros Hs. unfold replace. simpl replace_from. rewrite Hs. reflexivity.
Qed.

Lemma contains_cons_false (sub : str) (c : char) (t : str) :
  contains sub (c :: t) = false ->
  startswith sub (c :: t) = false /\ contains sub t = false.
Proof. simpl. apply orb_false_iff. Qed.

(** Nothing to replace: the string is returned as it is. *)
Lemma replace_absent (old new s : str) :
  contains old s = false -> replace old new s = s.
Proof.
  induction s as [|c t IH]; intros H; [reflexivity|].
  apply contains_cons_false in H. destruct H as [H1 H2].
  rewrite replace_miss by assumption. rewrite IH by assumption. reflexivity.
Qed.

Lemma contains_needs_char (sub s : str) (x : char) :
  In x sub -> ~ In x s -> contains sub s = false.
Proof.
  intros Hx. induction s as [|c t IH]; intros Hs.
  - simpl. destruct sub; [destruct Hx | reflexivity].
  - simpl contains. rewrite IH by (intros H; apply Hs; right; exact H).
    rewrite orb_false_r.
    destruct (startswith sub (c :: t)) eqn:E; [|reflexivity].
    apply startswith_iff in E. destruct E as [r E].
    exfalso. apply Hs. rewrite E. apply in_or_app. left; exact Hx.
Qed.

(** Deleting occurrences never introduces a character. *)
Lemma replace_from_delete_incl (old : str) (k : nat) (s : str) (x : char) :
  In x (replace_from old [] k s) -> In x s.
Proof.
  revert k; induction s as [|c t IH]; intros k H; [exact H|].
  destruct k as [|k]; simpl in H.
  - destruct (startswith old (c :: t)).
    + right. eapply IH; exact H.
    + destruct H as [H|H]; [left; exact H | right; eapply IH; exact H].
  - right. eapply IH; exact H.
Qed.

Lemma replace_delete_incl (old s : str) (x : char) :
  In x (replace old [] s) -> In x s.
Proof. apply replace_from_delete_incl. Qed.

Lemma split_absent (sep : char) (s : str) :
  ~ In sep s -> split sep s = [s].
Proof.
  induction s as [|c t IH]; intros H; [reflexivity|].
  simpl. destruct (chr_eqb c sep) eqn:E.
  - apply chr_eqb_eq in E. exfalso; apply H; left; exact E.
  - rewrite IH; [reflexivity|]. intros H'; apply H; right; exact H'.
Qed.

End StringFacts.

(** ** [clean_domain] *)

Section CleanFacts.

(** An occurrence of ["www."] cannot begin inside [a] and run into a
    following ["www."]: the pattern ends in a dot and has no other. *)
Lemma www_no_straddle (c : char) (a b : str) :
  contains (lit "www.") (c :: a) = false ->
  startswith (lit "www.") ((c :: a) ++ lit "www." ++ b) = false.
Proof.
  intros H.
  destruct (startswith (lit "www.") ((c :: a) ++ lit "www." ++ b)) eqn:E;
    [|reflexivity].
  exfalso. apply contains_cons_false in H. destruct H as [H _].
  apply startswith_iff in E. destruct E as [r E].
  destruct a as [|c2 [|c3 [|c4 a]]]; try discriminate E.
  assert (T : startswith (lit "www.") (c :: c2 :: c3 :: c4 :: a) = true).
  { apply startswith_iff. exists a. cbn in E |- *. congruence. }
  congruence.
Qed.

Lemma www_strip_first (a b : str) :
  contains (lit "www.") a = false ->
  replace (lit "www.") [] (a ++ lit "www." ++ b)
  = a ++ replace (lit "www.") [] b.
Proof.
  induction a as [|c a IH]; intros H.
  - rewrite replace_hit;
      [reflexivity | cbn; discriminate | apply (startswith_app (lit "www.") b)].
  - change ((c :: a) ++ lit "www." ++ b)
      with (c :: (a ++ lit "www." ++ b)).
    rewrite replace_miss.
    + simpl. f_equal. apply IH.
      apply contains_cons_false in H. apply H.
    + apply (www_no_straddle c a b H).
Qed.

(** [clean_domain] as one chain of steps, also on the empty string. *)
Lemma clean_domain_chain (s : str) :
  clean_domain (Some s)
  = Some (nth 0 (split 47%N
                   (replace (lit "www.") []
                      (replace (lit "https://") []
                         (replace (lit "http://") [] (strip s))))) []).
Proof. destruct s; reflexivity. Qed.

(** A string without an occurrence has none in any of its prefixes. *)
Lemma contains_app_false (sub p r : str) :
  contains sub (p ++ r) = false -> contains sub p = false.
Proof.
  induction p as [|c p IH]; intros H.
  - destruct (contains sub []) eqn:E; [|reflexivity]. exfalso.
    simpl in E. rewrite orb_false_r in E.
    apply startswith_iff in E. destruct E as [r' E].
    destruct sub; [|discriminate E].
    destruct r; simpl in H; discriminate H.
  - change ((c :: p) ++ r) with (c :: (p ++ r)) in H.
    apply contains_cons_false in H. destruct H as [H1 H2].
    simpl contains. rewrite (IH H2), orb_false_r.
    destruct (startswith sub (c :: p)) eqn:E; [|reflexivity]. exfalso.
    apply startswith_iff in E. destruct E as [r' E].
    assert (T : startswith sub (c :: (p ++ r)) = true).
    { apply startswith_iff. exists (r' ++ r).
      change (c :: (p ++ r)) with ((c :: p) ++ r).
      rewrite E, app_assoc. reflexivity. }
    congruence.
Qed.

(** The first piece of a split is a prefix of the string. *)
Lemma split_first_prefix (sep : char) (s : str) :
  exists r, s = nth 0 (split sep s) [] ++ r.
Proof.
  induction s as [|c t IH].
  - exists []. reflexivity.
  - simpl. destruct (chr_eqb c sep).
    + exists (c :: t). reflexivity.
    + destruct IH as [r IH]. destruct (split sep t) as [|h rest].
      * exists t. reflexivity.
      * exists r. simpl in IH |- *. rewrite <- IH. reflexivity.
Qed.

Lemma contains_first_piece (sub : str) (sep : char) (s : str) :
  contains sub s = false -> contains sub (nth 0 (split sep s) []) = false.
Proof.
  intros H. destruct (split_first_prefix sep s) as [r E].
  rewrite E in H. exact (contains_app_false _ _ _ H).
Qed.

End CleanFacts.

(** C3: the two literal inputs of the specification; the steps are applied
    in the order scheme-strip, www-strip, truncation at the first slash. *)
Theorem clean_domain_literal_cases :
  clean_domain (Some (lit "http://www.google.com")) = Some (lit "google.com")
  /\ clean_domain (Some (lit "https://github.com/user/repo"))
     = Some (lit "github.com")
  /\ (let stripped :=
        replace (lit "https://") []
          (replace (lit "http://") [] (strip (lit "https://github.com/user/repo"))) in
      stripped = lit "github.com/user/repo"
      /\ replace (lit "www.") [] stripped = stripped
      /\ nth 0 (split 47%N (replace (lit "www.") [] stripped)) [] = lit "github.com").
Proof. vm_compute. repeat split. Qed.

(** C7, as stated, fails.  With the www-strip step worded as the claim has
    it ("the first occurrence, exactly one removed"), the function is
    [clean_domain_www_first], and the code differs from it: of
    ["www.www.a.com"] the code leaves ["a.com"], the claim's wording
    ["www.a.com"].  And an input with a single occurrence can be cleaned to a
    string that contains one: ["wwww.ww."] gives ["www."]. *)
Lemma clean_domain_www_first_only_fails :
  ~ (forall s, clean_domain (Some s) = clean_domain_www_first (Some s))
  /\ ~ (forall s out, occurrences (lit "www.") s <= 1 ->
                      clean_domain (Some s) = Some out ->
                      contains (lit "www.") out = false).
Proof.
  split.
  - intros H. specialize (H (lit "www.www.a.com")).
    vm_compute in H. discriminate H.
  - intros H.
    specialize (H (lit "wwww.ww.") (lit "www.")).
    vm_compute in H. specialize (H (le_n 1) eq_refl). discriminate H.
Qed.

(** C7, amended: every occurrence of ["www."] met by the left-to-right scan
    is removed, wherever it stands.  Let the trimmed input with its schemes
    removed be [a ++ "www." ++ b], with no occurrence inside [a].  Then the
    result is the part before the first slash of [a] followed by [b] with
    its own occurrences removed; of [a ++ b] when [b] has none; [a] followed
    by the stripped [b] itself when neither holds a slash; and the result
    holds no ["www."] whenever [a] followed by the stripped [b] holds
    none. *)
Theorem clean_domain_strips_every_www (s a b : str) :
  replace (lit "https://") [] (replace (lit "http://") [] (strip s))
  = a ++ lit "www." ++ b ->
  contains (lit "www.") a = false ->
  clean_domain (Some s)
  = Some (nth 0 (split 47%N (a ++ replace (lit "www.") [] b)) [])
  /\ (contains (lit "www.") b = false ->
      clean_domain (Some s) = Some (nth 0 (split 47%N (a ++ b)) []))
  /\ (~ In 47%N a -> ~ In 47%N b ->
      clean_domain (Some s) = Some (a ++ replace (lit "www.") [] b))
  /\ (contains (lit "www.") (a ++ replace (lit "www.") [] b) = false ->
      forall out, clean_domain (Some s) = Some out ->
                  contains (lit "www.") out = false).
Proof.
  intros Hs Hwa.
  assert (Hc : clean_domain (Some s)
               = Some (nth 0 (split 47%N (a ++ replace (lit "www.") [] b)) [])).
  { rewrite clean_domain_chain, Hs, www_strip_first by exact Hwa.
    reflexivity. }
  split; [exact Hc|]. split; [|split].
  - intros Hwb. rewrite Hc, replace_absent by exact Hwb. reflexivity.
  - intros Ha Hb. rewrite Hc, split_absent; [reflexivity|].
    intros H. apply in_app_or in H. destruct H as [H|H]; [tauto|].
    apply replace_delete_incl in H. tauto.
  - intros Hfree out Hout. rewrite Hc in Hout. injection Hout as <-.
    apply contains_first_piece. exact Hfree.
Qed.

Lemma clean_domain_strips_every_www_witness :
  clean_domain (Some (lit "http://www.google.com")) = Some (lit "google.com").
Proof.
  refine (proj1 (@clean_domain_strips_every_www
                   (lit "http://www.google.com") [] (lit "google.com") _ _)).
  - vm_compute. reflexivity.
  - vm_compute. reflexivity.
Defined.

(** ** Dicts *)

Section DictFacts.

Context {V : Type}.
Implicit Types (d : Dict.dict V) (k : str) (v : V).

Lemma dict_keys_set k v d :
  Dict.keys (Dict.set k v d) = insert_key (Dict.keys d) k.
Proof.
  unfold insert_key. induction d as [|[k' v'] d IH]; [reflexivity|].
  simpl. destruct (str_eqb k' k) eqn:E.
  - apply str_eqb_eq in E; subst k'. rewrite str_eqb_refl. reflexivity.
  - assert (E' : str_eqb k k' = false).
    { apply str_eqb_neq. apply str_eqb_neq in E. congruence. }
    rewrite E'. simpl. simpl in IH. rewrite IH.
    destruct (existsb (str_eqb k) (Dict.keys d)); reflexivity.
Qed.

Lemma dict_get_set_same k v d : Dict.get k (Dict.set k v d) = Some v.
Proof.
  induction d as [|[k' v'] d IH]; simpl.
  - rewrite str_eqb_refl. reflexivity.
  - destruct (str_eqb k' k) eqn:E; simpl; rewrite E; [reflexivity | exact IH].
Qed.

Lemma dict_get_set_other k k' v d :
  k <> k' -> Dict.get k' (Dict.set k v d) = Dict.get k' d.
Proof.
  intros N. induction d as [|[k0 v0] d IH]; simpl.
  - apply str_eqb_neq in N. rewrite N. reflexivity.
  - destruct (str_eqb k0 k) eqn:E; simpl.
    + apply str_eqb_eq in E; subst k0.
      apply str_eqb_neq in N. rewrite N. reflexivity.
    + destruct (str_eqb k0 k'); [reflexivity | exact IH].
Qed.

Lemma dict_values_set (P : V -> Prop) k v d :
  P v -> Forall P (Dict.values d) -> Forall P (Dict.values (Dict.set k v d)).
Proof.
  intros Hv. induction d as [|[k' v'] d IH]; simpl; intros H.
  - constructor; [exact Hv | constructor].
  - inversion H; subst. destruct (str_eqb k' k); simpl.
    + constructor; assumption.
    + constructor; [assumption | apply IH; assumption].
Qed.

Lemma dict_values_set_inv (P : V -> Prop) k v d :
  Exists P (Dict.values (Dict.set k v d)) -> P v \/ Exists P (Dict.values d).
Proof.
  induction d as [|[k' v'] d IH]; simpl; intros H.
  - inversion H; subst; [left; assumption | right; assumption].
  - destruct (str_eqb k' k); simpl in H; inversion H; subst.
    + left; assumption.
    + right. apply Exists_cons_tl. assumption.
    + right. apply Exists_cons_hd. assumption.
    + destruct (IH H1) as [?|?]; [left; assumption|].
      right. apply Exists_cons_tl. assumption.
Qed.

Lemma dict_get_in_keys k d :
  In k (Dict.keys d) -> exists v, Dict.get k d = Some v /\ In v (Dict.values d).
Proof.
  induction d as [|[k' v'] d IH]; simpl; intros H; [destruct H|].
  destruct (str_eqb k' k) eqn:E.
  - exists v'. split; [reflexivity | left; reflexivity].
  - destruct H as [H|H].
    + subst k'. rewrite str_eqb_refl in E. discriminate E.
    + destruct (IH H) as [v [Hg Hi]]. exists v. split; [exact Hg | right; exact Hi].
Qed.

End DictFacts.

(** Keys in order of first insertion *)

Section KeyOrder.

Lemma existsb_str_eqb (k : str) (acc : list str) :
  existsb (str_eqb k) acc = true <-> In k acc.
Proof.
  rewrite existsb_exists. split.
  - intros [x [Hx E]]. apply str_eqb_eq in E. subst x. exact Hx.
  - intros H. exists k. split; [exact H | apply str_eqb_refl].
Qed.

Lemma insert_key_in (acc : list str) (k x : str) :
  In x (insert_key acc k) <-> In x acc \/ x = k.
Proof.
  unfold insert_key. destruct (existsb (str_eqb k) acc) eqn:E.
  - apply existsb_str_eqb in E. split; [tauto|].
    intros [H|H]; [exact H | subst x; exact E].
  - rewrite in_app_iff. simpl. intuition.
Qed.

Lemma insert_key_nodup (acc : list str) (k : str) :
  NoDup acc -> NoDup (insert_key acc k).
Proof.
  intros H. unfold insert_key. destruct (existsb (str_eqb k) acc) eqn:E.
  - exact H.
  - apply NoDup_app; [exact H | constructor; [intros []| constructor] |].
    intros x Hx [Hk|[]]. subst x.
    apply existsb_str_eqb in Hx. congruence.
Qed.

Lemma fold_insert_in (l acc : list str) (x : str) :
  In x (fold_left insert_key l acc) <-> In x acc \/ In x l.
Proof.
  revert acc; induction l as [|k l IH]; intros acc; simpl.
  - tauto.
  - rewrite IH, insert_key_in. intuition.
Qed.

Lemma fold_insert_nodup (l acc : list str) :
  NoDup acc -> NoDup (fold_left insert_key l acc).
Proof.
  revert acc; induction l as [|k l IH]; intros acc H; simpl.
  - exact H.
  - apply IH. apply insert_key_nodup. exact H.
Qed.

Lemma fold_insert_fresh (l acc : list str) :
  NoDup (acc ++ l) -> fold_left insert_key l acc = acc ++ l.
Proof.
  revert acc; induction l as [|k l IH]; intros acc H; simpl.
  - rewrite app_nil_r. reflexivity.
  - assert (Hk : ~ In k acc).
    { apply NoDup_remove_2 in H. intros Hi. apply H.
      apply in_or_app. left; exact Hi. }
    unfold insert_key at 2.
    destruct (existsb (str_eqb k) acc) eqn:E.
    + apply existsb_str_eqb in E. contradiction.
    + rewrite IH; rewrite <- app_assoc; [reflexivity | exact H].
Qed.

Lemma records_key_inj (a b : str) : records_key a = records_key b -> a = b.
Proof. unfold records_key. apply app_inv_tail. Qed.

Lemma first_occurrences_nodup (l : list str) :
  NoDup l -> first_occurrences (map records_key l) = map records_key l.
Proof.
  intros H. unfold first_occurrences.
  rewrite fold_insert_fresh; [reflexivity|]. simpl.
  apply Injective_map_NoDup; [|exact H].
  intros a b. apply records_key_inj.
Qed.

End KeyOrder.

(** ** The lookup loop *)

Section LoopFacts.

Variable silent : bool.
Variable website : str.

Lemma result_of_none (t : str) (a : answer) :
  result_of t a = None <-> a = NXDOMAIN.
Proof.
  destruct a as [records| | |]; simpl; split; try congruence.
  destruct (str_eqb t (lit "MX"));
    [|destruct (str_eqb t (lit "SOA"))];
    match goal with |- context [decode_all ?f ?l] =>
      destruct (decode_all f l) end; discriminate.
Qed.

Lemma result_of_nodata (t : str) (a : answer) :
  is_nodata_or_fault a = true -> result_of t a = Some [].
Proof. destruct a; simpl; congruence. Qed.

(** A loop whose fetches stop before the resolver issues no call and
    completes. *)
Lemma loop_trace_silent ts d f new res :
  loop_trace silent website ts d f new res ->
  silent = true -> new = [] /\ exists d', res = Some (d', f).
Proof.
  induction 1 as [d f|t ts d f Hs|t ts d f a l new res Hs Hr Ht IH
                 |t ts d f new res Hs Ht IH]; intros E.
  - split; [reflexivity | eauto].
  - congruence.
  - congruence.
  - apply IH. exact E.
Qed.

(** The types queried are an initial segment of the types to do. *)
Lemma loop_trace_prefix ts d f new res :
  loop_trace silent website ts d f new res ->
  map c_type new = firstn (List.length new) ts
  /\ Forall (fun c => c_website c = website) new.
Proof.
  induction 1 as [d f|t ts d f Hs|t ts d f a l new res Hs Hr Ht [IH1 IH2]
                 |t ts d f new res Hs Ht [IH1 IH2]].
  - split; [reflexivity | constructor].
  - split; [reflexivity | constructor; [reflexivity | constructor]].
  - split; [simpl; f_equal; exact IH1 | constructor; [reflexivity | exact IH2]].
  - destruct (loop_trace_silent Ht Hs) as [-> _].
    split; [reflexivity | constructor].
Qed.

Lemma loop_trace_nonempty t ts d f new res :
  loop_trace silent website (t :: ts) d f new res ->
  silent = false -> new <> [].
Proof. inversion 1; subst; intros E; try discriminate; congruence. Qed.

(** A call answered NXDOMAIN is the last one, and the loop returns [None]. *)
Lemma loop_trace_nxdomain ts d f new res :
  loop_trace silent website ts d f new res ->
  forall i c, nth_error new i = Some c -> c_answer c = NXDOMAIN ->
  res = None /\ List.length new = S i.
Proof.
  induction 1 as [d f|t ts d f Hs|t ts d f a l new res Hs Hr Ht IH
                 |t ts d f new res Hs Ht IH]; intros i c Hn Hc.
  - destruct i; discriminate Hn.
  - destruct i as [|i]; [split; reflexivity|].
    destruct i; discriminate Hn.
  - destruct i as [|i]; simpl in Hn.
    + injection Hn as <-. simpl in Hc. subst a. discriminate Hr.
    + destruct (IH i c Hn Hc) as [-> E]. split; [reflexivity | simpl; congruence].
  - apply (IH i c Hn Hc).
Qed.

(** After a call answered otherwise the loop goes on to the next type. *)
Lemma loop_trace_continues ts d f new res :
  loop_trace silent website ts d f new res ->
  forall i c, nth_error new i = Some c -> c_answer c <> NXDOMAIN ->
  (S i < List.length ts -> S i < List.length new)
  /\ (res = None -> S i < List.length new).
Proof.
  induction 1 as [d f|t ts d f Hs|t ts d f a l new res Hs Hr Ht IH
                 |t ts d f new res Hs Ht IH]; intros i c Hn Hc.
  - destruct i; discriminate Hn.
  - destruct i as [|i]; [|destruct i; discriminate Hn].
    injection Hn as <-. simpl in Hc. congruence.
  - destruct i as [|i]; simpl in Hn.
    + split.
      * intros Hlen. destruct ts as [|t' ts]; [simpl in Hlen; lia|].
        apply loop_trace_nonempty in Ht; [|exact Hs].
        destruct new; [congruence | simpl; lia].
      * intros ->. inversion Ht; subst; simpl; try lia; congruence.
    + destruct (IH i c Hn Hc) as [IH1 IH2]. simpl. split.
      * intros Hlen. apply -> Nat.succ_lt_mono. apply IH1. lia.
      * intros E. apply -> Nat.succ_lt_mono. apply IH2. exact E.
  - destruct (loop_trace_silent Ht Hs) as [-> _].
    destruct i; discriminate Hn.
Qed.

(** A completed loop that reaches the resolver has queried every type. *)
Lemma loop_trace_complete ts d f new d' f' :
  loop_trace silent website ts d f new (Some (d', f')) ->
  silent = false -> map c_type new = ts.
Proof.
  remember (Some (d', f')) as res eqn:E. intros H. revert E.
  induction H as [d f|t ts d f Hs|t ts d f a l new res Hs Hr Ht IH
                 |t ts d f new res Hs Ht IH]; intros E Hsil.
  - reflexivity.
  - discriminate E.
  - simpl. f_equal. apply IH; assumption.
  - congruence.
Qed.

(** Keys the remaining calls do not assign keep their value. *)
Lemma loop_trace_get_other ts d f new d' f' :
  loop_trace silent website ts d f new (Some (d', f')) ->
  silent = false ->
  forall k, (forall c, In c new -> records_key (c_type c) <> k) ->
  Dict.get k d' = Dict.get k d.
Proof.
  remember (Some (d', f')) as res eqn:E. intros H. revert E.
  induction H as [d f|t ts d f Hs|t ts d f a l new res Hs Hr Ht IH
                 |t ts d f new res Hs Ht IH]; intros E Hsil k Hk.
  - injection E as <- <-. reflexivity.
  - discriminate E.
  - rewrite (IH E Hsil k) by (intros c Hc; apply Hk; right; exact Hc).
    apply dict_get_set_other. apply (Hk (mkCall website t a)). left; reflexivity.
  - congruence.
Qed.

(** The value under a type's key is what its last call produced. *)
Lemma loop_trace_get_last ts d f new d' f' :
  loop_trace silent website ts d f new (Some (d', f')) ->
  forall i c, nth_error new i = Some c ->
  (forall j c', i < j -> nth_error new j = Some c' -> c_type c' <> c_type c) ->
  Dict.get (records_key (c_type c)) d' = result_of (c_type c) (c_answer c).
Proof.
  remember (Some (d', f')) as res eqn:E. intros H. revert E.
  induction H as [d f|t ts d f Hs|t ts d f a l new res Hs Hr Ht IH
                 |t ts d f new res Hs Ht IH];
    intros E i c Hn Hlast.
  - destruct i; discriminate Hn.
  - discriminate E.
  - subst res. destruct i as [|i]; simpl in Hn.
    + injection Hn as <-. simpl.
      rewrite (loop_trace_get_other Ht Hs).
      * rewrite dict_get_set_same. symmetry; exact Hr.
      * intros c' Hc' Heq. apply records_key_inj in Heq.
        apply In_nth_error in Hc'. destruct Hc' as [j Hj].
        apply (Hlast (S j) c'); [lia | exact Hj | exact Heq].
    + apply (IH eq_refl i c Hn).
      intros j c' Hij Hj. apply (Hlast (S j) c'); [lia | exact Hj].
  - destruct (loop_trace_silent Ht Hs) as [-> _].
    destruct i; discriminate Hn.
Qed.

Lemma loop_trace_keys ts d f new d' f' :
  loop_trace silent website ts d f new (Some (d', f')) ->
  Dict.keys d' = fold_left insert_key (map records_key ts) (Dict.keys d).
Proof.
  remember (Some (d', f')) as res eqn:E. intros H. revert E.
  induction H as [d f|t ts d f Hs|t ts d f a l new res Hs Hr Ht IH
                 |t ts d f new res Hs Ht IH]; intros E.
  - injection E as <- <-. reflexivity.
  - discriminate E.
  - simpl. rewrite (IH E). rewrite dict_keys_set. reflexivity.
  - simpl. rewrite (IH E). rewrite dict_keys_set. reflexivity.
Qed.

(** When every call is answered [NoAnswer] the loop completes, the flag is
    untouched and only empty lists are stored. *)
Lemma loop_trace_all_nodata ts d f new res :
  loop_trace silent website ts d f new res ->
  Forall (fun c => c_answer c = NoAnswer) new ->
  exists d', res = Some (d', f)
    /\ (Forall (fun l => l = []) (Dict.values d) ->
        Forall (fun l => l = []) (Dict.values d')).
Proof.
  induction 1 as [d f|t ts d f Hs|t ts d f a l new res Hs Hr Ht IH
                 |t ts d f new res Hs Ht IH]; intros Hall.
  - exists d. split; [reflexivity | tauto].
  - inversion Hall; subst. discriminate.
  - inversion Hall as [|? ? Ha Hall']; subst. simpl in Ha. subst a.
    simpl in Hr. injection Hr as <-.
    destruct (IH Hall') as [d' [E Hv]].
    exists d'. split.
    + rewrite E. simpl. rewrite orb_false_r. reflexivity.
    + intros Hd. apply Hv. apply dict_values_set; [reflexivity | exact Hd].
  - destruct (IH Hall) as [d' [E Hv]].
    exists d'. split; [exact E|].
    intros Hd. apply Hv. apply dict_values_set; [reflexivity | exact Hd].
Qed.

(** [domain_exists] is set whenever a non-empty list is stored. *)
Lemma loop_trace_flag ts d f new d' f' :
  loop_trace silent website ts d f new (Some (d', f')) ->
  (Exists (fun l => nonempty l = true) (Dict.values d) -> f = true) ->
  Exists (fun l => nonempty l = true) (Dict.values d') -> f' = true.
Proof.
  remember (Some (d', f')) as res eqn:E. intros H. revert E.
  induction H as [d f|t ts d f Hs|t ts d f a l new res Hs Hr Ht IH
                 |t ts d f new res Hs Ht IH]; intros E Hd.
  - injection E as <- <-. exact Hd.
  - discriminate E.
  - apply (IH E). intros Hx.
    apply dict_values_set_inv in Hx. destruct Hx as [Hl|Hx].
    + rewrite Hl. apply orb_true_r.
    + rewrite (Hd Hx). reflexivity.
  - apply (IH E). intros Hx.
    apply dict_values_set_inv in Hx. destruct Hx as [Hl|Hx].
    + discriminate Hl.
    + exact (Hd Hx).
Qed.

End LoopFacts.

(** ** [fetch_record_type] and [get_dns_records] *)

Section LookupFacts.

Context {R : Resolver}.
Variable quiet : bool.

(** A fetch that gets past the read of [show_progress]. *)
Lemma fetch_record_type_result (cfg : config) (website t : str) (st : state) :
  progress_read_raises cfg quiet = false ->
  fetch_record_type cfg website t quiet st
  = (result_of t (fst (resolve website t (st_world st))),
     mkState (snd (resolve website t (st_world st)))
             (st_calls st
              ++ [mkCall website t (fst (resolve website t (st_world st)))])).
Proof.
  unfold progress_read_raises, fetch_record_type, result_of. intros Hp.
  destruct (progress_wanted cfg quiet) as [p|]; [|discriminate Hp].
  destruct (resolve website t (st_world st)) as [a w']. simpl.
  destruct a as [records| | |]; try reflexivity.
  destruct (str_eqb t (lit "MX"));
    [|destruct (str_eqb t (lit "SOA"))];
    match goal with |- context [decode_all ?f ?l] =>
      destruct (decode_all f l) end; reflexivity.
Qed.

(** A fetch stopped by that read. *)
Lemma fetch_record_type_silent (cfg : config) (website t : str) (st : state) :
  progress_read_raises cfg quiet = true ->
  fetch_record_type cfg website t quiet st = (Some [], st).
Proof.
  unfold progress_read_raises, fetch_record_type. intros Hp.
  destruct (progress_wanted cfg quiet); [discriminate Hp | reflexivity].
Qed.

(** The loop issues exactly the calls of its trace. *)
Lemma fetch_all_trace (cfg : config) (website : str) (ts : list str) :
  forall d f st res st',
  fetch_all cfg website ts quiet d f st = (res, st') ->
  exists new, st_calls st' = st_calls st ++ new
              /\ loop_trace (progress_read_raises cfg quiet) website ts d f
                   new res.
Proof.
  destruct (progress_read_raises cfg quiet) eqn:Hs.
  - induction ts as [|t ts IH]; intros d f st res st' H; simpl in H.
    + injection H as <- <-. exists []. rewrite app_nil_r.
      split; [reflexivity | constructor].
    + rewrite (fetch_record_type_silent cfg website t st Hs) in H.
      destruct (IH _ _ _ _ _ H) as [new [Hc Ht]].
      exists new. split; [exact Hc|].
      apply loop_skip; [reflexivity | exact Ht].
  - induction ts as [|t ts IH]; intros d f st res st' H; simpl in H.
    + injection H as <- <-. exists []. rewrite app_nil_r.
      split; [reflexivity | constructor].
    + rewrite (fetch_record_type_result cfg website t st Hs) in H.
      set (a := fst (resolve website t (st_world st))) in *.
      destruct (result_of t a) as [l|] eqn:Hr.
      * assert (Hstep :
          fetch_all cfg website ts quiet (Dict.set (records_key t) l d)
            (f || nonempty l)
            (mkState (snd (resolve website t (st_world st)))
                     (st_calls st ++ [mkCall website t a])) = (res, st')).
        { destruct l; simpl; [rewrite orb_false_r | rewrite orb_true_r];
            exact H. }
        destruct (IH _ _ _ _ _ Hstep) as [new [Hc Ht]].
        exists (mkCall website t a :: new). split.
        -- rewrite Hc. simpl. rewrite <- app_assoc. reflexivity.
        -- apply loop_next with (l := l); [reflexivity | assumption..].
      * injection H as <- <-. apply result_of_none in Hr.
        exists [mkCall website t a]. split; [reflexivity|].
        rewrite Hr. constructor. reflexivity.
Qed.

Lemma calls_since_app (st st' : state) (new : list call) :
  st_calls st' = st_calls st ++ new -> calls_since st st' = new.
Proof.
  intros E. unfold calls_since. rewrite E.
  rewrite skipn_app, skipn_all, Nat.sub_diag. reflexivity.
Qed.

Lemma calls_since_same (st : state) : calls_since st st = [].
Proof. apply calls_since_app. rewrite app_nil_r. reflexivity. Qed.

(** An invalid domain ends the lookup before the loop. *)
Lemma get_dns_records_flag_invalid cfg raw req st :
  validate_domain (clean_domain raw) = false ->
  get_dns_records_flag cfg raw req quiet st = (None, st).
Proof. intros H. unfold get_dns_records_flag. rewrite H. reflexivity. Qed.

(** A valid one enters it with an empty dict. *)
Lemma get_dns_records_flag_valid cfg raw req st r st' :
  validate_domain (clean_domain raw) = true ->
  get_dns_records_flag cfg raw req quiet st = (r, st') ->
  exists website,
    clean_domain raw = Some website
    /\ st_calls st' = st_calls st ++ calls_since st st'
    /\ loop_trace (progress_read_raises cfg quiet) website
         (types_to_query cfg req) [] false (calls_since st st') r.
Proof.
  intros Hv H. unfold get_dns_records_flag in H. rewrite Hv in H. simpl in H.
  destruct (clean_domain raw) as [website|] eqn:Ec; [|discriminate Hv].
  apply fetch_all_trace in H. destruct H as [new [Hc Ht]].
  exists website. rewrite (calls_since_app _ _ _ Hc). auto.
Qed.

Lemma get_dns_records_unfold cfg raw req st r st' :
  get_dns_records cfg raw req quiet st = (r, st') ->
  exists rf, get_dns_records_flag cfg raw req quiet st = (rf, st')
             /\ r = option_map fst rf.
Proof.
  unfold get_dns_records.
  destruct (get_dns_records_flag cfg raw req quiet st) as [rf st1].
  intros H; injection H as <- <-. exists rf; auto.
Qed.

(** Every run is either the invalid-domain exit or a loop run. *)
Lemma get_dns_records_cases cfg raw req st r st' :
  get_dns_records cfg raw req quiet st = (r, st') ->
  (validate_domain (clean_domain raw) = false /\ r = None /\ st' = st)
  \/ (validate_domain (clean_domain raw) = true
      /\ exists website rf,
           clean_domain raw = Some website
           /\ r = option_map fst rf
           /\ st_calls st' = st_calls st ++ calls_since st st'
           /\ loop_trace (progress_read_raises cfg quiet) website
                (types_to_query cfg req) [] false (calls_since st st') rf).
Proof.
  intros H. apply get_dns_records_unfold in H. destruct H as [rf [H ->]].
  destruct (validate_domain (clean_domain raw)) eqn:Hv.
  - right. split; [reflexivity|].
    destruct (get_dns_records_flag_valid _ _ _ _ Hv H) as [w [? [? ?]]].
    exists w, rf. auto.
  - left. rewrite get_dns_records_flag_invalid in H by exact Hv.
    injection H as <- <-. auto.
Qed.

(** C1: when a resolver call of a lookup is answered NXDOMAIN, the lookup
    returns [None], that call is the last one issued, and the calls issued
    are those for the requested types up to and including that one, in the
    requested order: later types are never queried. *)
Theorem nxdomain_aborts_lookup cfg raw req st r st' i c :
  get_dns_records cfg raw req quiet st = (r, st') ->
  nth_error (calls_since st st') i = Some c ->
  c_answer c = NXDOMAIN ->
  r = None
  /\ st_calls st' = st_calls st ++ calls_since st st'
  /\ List.length (calls_since st st') = S i
  /\ map c_type (calls_since st st') = firstn (S i) (types_to_query cfg req).
Proof.
  intros H Hn Hc. apply get_dns_records_cases in H.
  destruct H as [[_ [_ ->]] | [_ [w [rf [_ [-> [Hcalls Ht]]]]]]].
  - rewrite calls_since_same in Hn. destruct i; discriminate Hn.
  - destruct (loop_trace_nxdomain Ht _ Hn Hc) as [-> Hlen].
    destruct (loop_trace_prefix Ht) as [Hp _].
    rewrite Hlen in Hp. auto.
Qed.

(** C4: when the cleaned domain fails validation the lookup returns [None]
    and leaves the state as it was: no resolver call is issued. *)
Theorem invalid_domain_no_resolver_call cfg raw req st :
  validate_domain (clean_domain raw) = false ->
  get_dns_records cfg raw req quiet st = (None, st)
  /\ calls_since st (snd (get_dns_records cfg raw req quiet st)) = [].
Proof.
  intros H. unfold get_dns_records.
  rewrite get_dns_records_flag_invalid by exact H. simpl.
  split; [reflexivity | apply calls_since_same].
Qed.

(** C5: a call answered [NoAnswer] or by any other error does not end the
    lookup: if a requested type follows, it is queried next; the call is not
    the last one of an aborted lookup; and in the returned dict the key of
    its type holds the empty list (unless the same type is queried again
    later, which then decides). *)
Theorem nodata_and_fault_continue cfg raw req st r st' i c :
  get_dns_records cfg raw req quiet st = (r, st') ->
  nth_error (calls_since st st') i = Some c ->
  is_nodata_or_fault (c_answer c) = true ->
  (S i < List.length (types_to_query cfg req) ->
   exists c', nth_error (calls_since st st') (S i) = Some c'
              /\ nth_error (types_to_query cfg req) (S i) = Some (c_type c'))
  /\ (r = None -> S i < List.length (calls_since st st'))
  /\ (forall d, r = Some d ->
      (forall j c', i < j -> nth_error (calls_since st st') j = Some c' ->
                    c_type c' <> c_type c) ->
      Dict.get (records_key (c_type c)) d = Some []).
Proof.
  intros H Hn Hc. apply get_dns_records_cases in H.
  destruct H as [[_ [_ ->]] | [_ [w [rf [_ [-> [Hcalls Ht]]]]]]].
  - rewrite calls_since_same in Hn. destruct i; discriminate Hn.
  - assert (Hnx : c_answer c <> NXDOMAIN).
    { intros E. rewrite E in Hc. discriminate Hc. }
    destruct (loop_trace_continues Ht _ Hn Hnx) as [Hnext Hnone].
    destruct (loop_trace_prefix Ht) as [Hp _].
    split; [|split].
    + intros Hlen. specialize (Hnext Hlen).
      destruct (nth_error (calls_since st st') (S i)) as [c'|] eqn:E.
      * exists c'. split; [reflexivity|].
        assert (E' : nth_error (map c_type (calls_since st st')) (S i)
                     = Some (c_type c')).
        { rewrite nth_error_map, E. reflexivity. }
        rewrite Hp in E'. rewrite nth_error_firstn in E'.
        destruct (Nat.ltb_spec (S i) (List.length (calls_since st st')));
          [exact E' | lia].
      * apply nth_error_None in E. lia.
    + intros E. apply Hnone. destruct rf; [discriminate E | reflexivity].
    + intros d E Hlast. destruct rf as [[d' f']|]; [|discriminate E].
      injection E as <-.
      rewrite (loop_trace_get_last Ht Hn Hlast).
      apply result_of_nodata. exact Hc.
Qed.

Lemma all_empty_no_nonempty (vs : list (list record)) :
  Forall (fun l => l = []) vs -> existsb nonempty vs = false.
Proof.
  induction 1 as [|l vs Hl _ IH]; [reflexivity|].
  simpl. rewrite Hl, IH. reflexivity.
Qed.

(** C6: for a valid domain, when every call is answered [NoAnswer] the
    lookup returns a dict (not [None]) in which every requested type's key is
    present with the empty list, [domain_exists] stays false and the outcome
    is FoundEmpty; and whenever a returned dict holds a non-empty list,
    [domain_exists] is true (Found). *)
Theorem all_nodata_gives_found_empty cfg raw req st rf st' :
  validate_domain (clean_domain raw) = true ->
  get_dns_records_flag cfg raw req quiet st = (rf, st') ->
  (Forall (fun c => c_answer c = NoAnswer) (calls_since st st') ->
   exists d,
     rf = Some (d, false)
     /\ get_dns_records cfg raw req quiet st = (Some d, st')
     /\ (forall t, In t (types_to_query cfg req) ->
         Dict.get (records_key t) d = Some [])
     /\ Dict.keys d
        = first_occurrences (map records_key (types_to_query cfg req))
     /\ outcome_of (Some d) = FoundEmpty
     /\ outcome_of (Some d) <> outcome_of None)
  /\ (forall d flag, rf = Some (d, flag) ->
      outcome_of (Some d) = Found -> flag = true).
Proof.
  intros Hv H.
  destruct (get_dns_records_flag_valid _ _ _ _ Hv H) as [w [_ [_ Ht]]].
  split.
  - intros Hall.
    destruct (loop_trace_all_nodata Ht Hall) as [d [E Hvals]].
    specialize (Hvals (Forall_nil _)).
    assert (Hk : Dict.keys d
                 = first_occurrences (map records_key (types_to_query cfg req))).
    { subst rf. apply (loop_trace_keys Ht). }
    assert (Ho : outcome_of (Some d) = FoundEmpty).
    { simpl. rewrite all_empty_no_nonempty by exact Hvals. reflexivity. }
    exists d. repeat split.
    + exact E.
    + unfold get_dns_records. rewrite H, E. reflexivity.
    + intros t Hin.
      assert (Hin' : In (records_key t) (Dict.keys d)).
      { rewrite Hk. unfold first_occurrences. apply fold_insert_in.
        right. apply in_map. exact Hin. }
      apply dict_get_in_keys in Hin'. destruct Hin' as [v [Hg Hvin]].
      rewrite Forall_forall in Hvals. rewrite (Hvals v Hvin) in Hg. exact Hg.
    + exact Hk.
    + exact Ho.
    + rewrite Ho. discriminate.
  - intros d flag E Ho. subst rf.
    apply (loop_trace_flag Ht).
    + intros Hx. inversion Hx.
    + simpl in Ho.
      destruct (existsb nonempty (Dict.values d)) eqn:Ex; [|discriminate Ho].
      apply existsb_exists in Ex. apply Exists_exists. exact Ex.
Qed.

(** C8: a returned dict has one key per requested type, ["<TYPE>_Records"],
    and its keys come in the order in which the types were requested (each at
    the place of its first request; for a request without repetition the
    keys are exactly the requested types' keys, in order). *)
Theorem result_keys_follow_request_order cfg raw req st d st' :
  get_dns_records cfg raw req quiet st = (Some d, st') ->
  Dict.keys d = first_occurrences (map records_key (types_to_query cfg req))
  /\ NoDup (Dict.keys d)
  /\ (forall k, In k (Dict.keys d) <->
                exists t, In t (types_to_query cfg req) /\ k = records_key t)
  /\ (NoDup (types_to_query cfg req) ->
      Dict.keys d = map records_key (types_to_query cfg req)).
Proof.
  intros H. apply get_dns_records_cases in H.
  destruct H as [[_ [E _]] | [_ [w [rf [_ [E [_ Ht]]]]]]]; [discriminate E|].
  destruct rf as [[d' f']|]; [|discriminate E]. injection E as ->.
  assert (Hk : Dict.keys d'
               = first_occurrences (map records_key (types_to_query cfg req))).
  { apply (loop_trace_keys Ht). }
  split; [exact Hk|]. split; [|split].
  - rewrite Hk. apply fold_insert_nodup. constructor.
  - intros k. rewrite Hk. unfold first_occurrences.
    rewrite fold_insert_in, in_map_iff. split.
    + intros [[]|[t [Et Hin]]]. exists t. auto.
    + intros [t [Hin ->]]. right. exists t. auto.
  - intros Hnd. rewrite Hk. apply first_occurrences_nodup. exact Hnd.
Qed.

End LookupFacts.

(** C9: a lookup whose cleaned domain is invalid and a lookup in which the
    resolver answers NXDOMAIN return the same value, [None]. *)
Theorem invalid_and_absent_return_the_same {R : Resolver}
    cfg1 raw1 req1 quiet1 st1 cfg2 raw2 req2 quiet2 st2 r2 st2' c :
  validate_domain (clean_domain raw1) = false ->
  get_dns_records cfg2 raw2 req2 quiet2 st2 = (r2, st2') ->
  In c (calls_since st2 st2') -> c_answer c = NXDOMAIN ->
  fst (get_dns_records cfg1 raw1 req1 quiet1 st1) = r2 /\ r2 = None.
Proof.
  intros Hinv H2 Hin Hc.
  assert (E2 : r2 = None).
  { apply get_dns_records_cases in H2.
    destruct H2 as [[_ [E _]] | [_ [w [rf [_ [-> [_ Ht]]]]]]]; [exact E|].
    apply In_nth_error in Hin. destruct Hin as [i Hi].
    destruct (loop_trace_nxdomain Ht _ Hi Hc) as [-> _]. reflexivity. }
  split; [|exact E2]. rewrite E2.
  unfold get_dns_records.
  rewrite get_dns_records_flag_invalid by exact Hinv. reflexivity.
Qed.


(** ** The theorems at the test fixtures *)

Section Fixtures.

(** NXDOMAIN on the second of three requested types: the third is never
    queried. *)
Lemma nxdomain_aborts_lookup_witness :
  let st := scripted_state [NoAnswer; NXDOMAIN; mx_answer] in
  let run := get_dns_records (R := scripted) test_config example_com None true st in
  fst run = None
  /\ st_calls (snd run) = st_calls st ++ calls_since st (snd run)
  /\ List.length (calls_since st (snd run)) = 2
  /\ map c_type (calls_since st (snd run))
     = firstn 2 (types_to_query test_config None).
Proof.
  intros st run.
  apply (@nxdomain_aborts_lookup scripted true test_config example_com None st
           (fst run) (snd run) 1
           (mkCall (lit "example.com") (lit "MX") NXDOMAIN)).
  - vm_compute. reflexivity.
  - vm_compute. reflexivity.
  - reflexivity.
Defined.

Lemma invalid_domain_no_resolver_call_witness :
  let st := scripted_state [mx_answer] in
  let raw := Some (lit "http://invalid..domain.com/x") in
  get_dns_records (R := scripted) test_config raw None true st = (None, st)
  /\ calls_since st (snd (get_dns_records (R := scripted) test_config raw None true st))
     = [].
Proof.
  intros st raw.
  apply (@invalid_domain_no_resolver_call scripted true test_config raw None st).
  vm_compute. reflexivity.
Defined.

Lemma nodata_and_fault_continue_witness :
  let st := scripted_state [OtherError; mx_answer; NoAnswer] in
  let run := get_dns_records (R := scripted) test_config example_com None true st in
  let c := mkCall (lit "example.com") (lit "A") OtherError in
  (1 < List.length (types_to_query test_config None) ->
   exists c', nth_error (calls_since st (snd run)) 1 = Some c'
              /\ nth_error (types_to_query test_config None) 1 = Some (c_type c'))
  /\ (fst run = None -> 1 < List.length (calls_since st (snd run)))
  /\ (forall d, fst run = Some d ->
      (forall j c', 0 < j -> nth_error (calls_since st (snd run)) j = Some c' ->
                    c_type c' <> c_type c) ->
      Dict.get (records_key (c_type c)) d = Some []).
Proof.
  intros st run c.
  apply (@nodata_and_fault_continue scripted true test_config example_com None st
           (fst run) (snd run) 0 c).
  - vm_compute. reflexivity.
  - vm_compute. reflexivity.
  - reflexivity.
Defined.

Lemma all_nodata_gives_found_empty_witness :
  let st := scripted_state [NoAnswer; NoAnswer; NoAnswer] in
  let run := get_dns_records_flag (R := scripted) test_config example_com None true st in
  exists d,
    fst run = Some (d, false)
    /\ get_dns_records (R := scripted) test_config example_com None true st
       = (Some d, snd run)
    /\ (forall t, In t (types_to_query test_config None) ->
        Dict.get (records_key t) d = Some [])
    /\ Dict.keys d
       = first_occurrences (map records_key (types_to_query test_config None))
    /\ outcome_of (Some d) = FoundEmpty
    /\ outcome_of (Some d) <> outcome_of None.
Proof.
  intros st run.
  assert (Hv : validate_domain (clean_domain example_com) = true)
    by (vm_compute; reflexivity).
  assert (Hr : get_dns_records_flag (R := scripted) test_config example_com None true st
               = (fst run, snd run))
    by (vm_compute; reflexivity).
  apply (proj1 (@all_nodata_gives_found_empty scripted true test_config example_com
                  None st (fst run) (snd run) Hv Hr)).
  vm_compute. repeat constructor.
Defined.

Lemma result_keys_follow_request_order_witness :
  let st := scripted_state [NoAnswer; mx_answer; OtherError] in
  let d : records_dict :=
    [(lit "A_Records", []);
     (lit "MX_Records", [MXRecord 10 (lit "mail.example.com")]);
     (lit "NS_Records", [])] in
  Dict.keys d = map lit ["A_Records"; "MX_Records"; "NS_Records"]%string
  /\ Dict.keys d
     = first_occurrences (map records_key (types_to_query test_config None)).
Proof.
  intros st d. split; [reflexivity|].
  refine (proj1 (@result_keys_follow_request_order scripted true test_config
                   example_com None st d
                   (snd (get_dns_records (R := scripted) test_config
                           example_com None true st)) _)).
  vm_compute. reflexivity.
Defined.

Lemma invalid_and_absent_return_the_same_witness :
  let st := scripted_state [NoAnswer; NXDOMAIN] in
  let run := get_dns_records (R := scripted) test_config example_com None
               true st in
  fst (get_dns_records (R := scripted) test_config (Some (lit "-invalid.com"))
         None false st) = fst run
  /\ fst run = None.
Proof.
  intros st run.
  apply (@invalid_and_absent_return_the_same scripted
           test_config (Some (lit "-invalid.com")) None false st
           test_config example_com None true st (fst run) (snd run)
           (mkCall (lit "example.com") (lit "MX") NXDOMAIN)).
  - vm_compute. reflexivity.
  - vm_compute. reflexivity.
  - vm_compute. right. left. reflexivity.
  - reflexivity.
Defined.

End Fixtures.

(** ** The matcher *)

Section MatcherFacts.

Lemma advance_nil (i j : input) : advance i [] j <-> i = j.
Proof.
  unfold advance. destruct i as [p r], j as [q t]; simpl. split.
  - intros [-> ->]. f_equal. lia.
  - intros E; injection E as <- <-. split; [reflexivity | lia].
Qed.

Lemma advance_app (i x j : input) (a b : str) :
  advance i a x -> advance x b j -> advance i (a ++ b) j.
Proof.
  unfold advance. intros [E1 P1] [E2 P2]. split.
  - rewrite E1, E2, app_assoc. reflexivity.
  - rewrite P2, P1, length_app. lia.
Qed.

Lemma advance_split (i j : input) (a b : str) :
  advance i (a ++ b) j ->
  exists x, advance i a x /\ advance x b j.
Proof.
  unfold advance. intros [E P].
  exists (mkInput (pos i + List.length a) (b ++ rest j)). simpl.
  rewrite length_app in P. rewrite <- app_assoc in E.
  repeat split; [exact E | lia].
Qed.

Lemma advance_length (i j : input) (l : str) :
  advance i l j -> List.length l <= List.length (rest i).
Proof. intros [E _]. rewrite E, length_app. lia. Qed.

Lemma recognises_ext step (L L' : str -> Prop) :
  recognises step L -> (forall l, L l <-> L' l) -> recognises step L'.
Proof.
  intros H E i j. rewrite (H i j). split; intros [l [A Hl]]; exists l;
    (split; [exact A | apply E; exact Hl]).
Qed.

Lemma recognises_class (ranges : list (char * char)) :
  recognises (run (IN ranges)) (one_of (in_ranges ranges)).
Proof.
  intros i j. simpl. unfold one_of, advance. split.
  - destruct (rest i) as [|c t] eqn:E; [intros []|].
    destruct (in_ranges ranges c) eqn:Hc; [|intros []].
    intros [<-|[]]. exists [c]. simpl. repeat split; [lia|].
    exists c. auto.
  - intros [l [[E P] [c [-> Hc]]]]. rewrite E. simpl. rewrite Hc.
    left. destruct j as [q t]; simpl in *. f_equal. lia.
Qed.

Lemma recognises_literal (x : char) :
  recognises (run (LITERAL x)) (one_of (fun c => chr_eqb c x)).
Proof.
  intros i j. simpl. unfold one_of, advance. split.
  - destruct (rest i) as [|c t] eqn:E; [intros []|].
    destruct (chr_eqb c x) eqn:Hc; [|intros []].
    intros [<-|[]]. exists [c]. simpl. repeat split; [lia|].
    exists c. auto.
  - intros [l [[E P] [c [-> Hc]]]]. rewrite E. simpl. rewrite Hc.
    left. destruct j as [q t]; simpl in *. f_equal. lia.
Qed.

Lemma recognises_seq (a b : regex) (L1 L2 : str -> Prop) :
  recognises (run a) L1 -> recognises (run b) L2 ->
  recognises (run (SEQ a b)) (cat L1 L2).
Proof.
  intros Ha Hb i j. simpl. rewrite in_flat_map. split.
  - intros [x [Hx Hj]]. apply Ha in Hx. apply Hb in Hj.
    destruct Hx as [l1 [A1 H1]]. destruct Hj as [l2 [A2 H2]].
    exists (l1 ++ l2). split; [eapply advance_app; eassumption|].
    exists l1, l2. auto.
  - intros [l [A [l1 [l2 [-> [H1 H2]]]]]].
    apply advance_split in A. destruct A as [x [A1 A2]].
    exists x. split; [apply Ha | apply Hb]; eauto.
Qed.

Lemma rep_iter step (lo n : nat) (i j : input) :
  In j (rep step lo n i) <-> exists k, lo <= k /\ k <= n /\ iter step k i j.
Proof.
  revert lo i. induction n as [|n IH]; intros lo i; simpl.
  - destruct lo as [|lo]; simpl.
    + split.
      * intros [<-|[]]. exists 0. simpl. auto.
      * intros [k [_ [Hk Hi]]]. assert (k = 0) by lia. subst k.
        simpl in Hi. left; exact Hi.
    + split; [intros [] | intros [k [? [? _]]]; lia].
  - rewrite in_app_iff, in_flat_map. split.
    + intros [[x [Hx Hj]] | Hj].
      * apply IH in Hj. destruct Hj as [k [Hlo [Hn Hi]]].
        exists (S k). simpl. repeat split; [lia | lia | eauto].
      * destruct lo as [|lo]; simpl in Hj; [|destruct Hj].
        destruct Hj as [<-|[]]. exists 0. simpl. repeat split; lia.
    + intros [k [Hlo [Hn Hi]]]. destruct k as [|k]; simpl in Hi.
      * right. assert (lo = 0) by lia. subst lo. simpl. left; exact Hi.
      * left. destruct Hi as [x [Hx Hi]]. exists x. split; [exact Hx|].
        apply IH. exists k. repeat split; [lia | lia | exact Hi].
Qed.

Lemma iter_pieces step (L : str -> Prop) :
  recognises step L ->
  forall k i j,
  iter step k i j <->
  exists ls, List.length ls = k /\ Forall L ls /\ advance i (List.concat ls) j.
Proof.
  intros H. induction k as [|k IH]; intros i j; simpl.
  - split.
    + intros ->. exists []. simpl. split; [reflexivity|].
      split; [constructor | apply advance_nil; reflexivity].
    + intros [ls [Hl [_ A]]]. destruct ls; [|discriminate Hl].
      apply advance_nil. exact A.
  - split.
    + intros [x [Hx Hi]]. apply H in Hx. destruct Hx as [l [A Hl]].
      apply IH in Hi. destruct Hi as [ls [Hlen [Hall A']]].
      exists (l :: ls). simpl. split; [|split].
      * congruence.
      * constructor; assumption.
      * eapply advance_app; eassumption.
    + intros [ls [Hlen [Hall A]]]. destruct ls as [|l ls]; [discriminate Hlen|].
      simpl in A. apply advance_split in A. destruct A as [x [A1 A2]].
      inversion Hall; subst. exists x. split.
      * apply H. eauto.
      * apply IH. exists ls. split; [simpl in Hlen; lia | split; assumption].
Qed.

Lemma recognises_repeat (lo hi : nat) (r : regex) (L : str -> Prop) :
  recognises (run r) L ->
  recognises (run (MAX_REPEAT lo (Some hi) r)) (pieces lo (Some hi) L).
Proof.
  intros H i j. simpl. rewrite rep_iter. unfold pieces. split.
  - intros [k [Hlo [Hhi Hi]]]. apply (iter_pieces H) in Hi.
    destruct Hi as [ls [Hlen [Hall A]]].
    exists (List.concat ls). split; [exact A|].
    exists ls. subst k. auto.
  - intros [l [A [ls [Hlo [Hhi [Hall ->]]]]]].
    exists (List.length ls). repeat split; [exact Hlo | exact Hhi|].
    apply (iter_pieces H). exists ls. auto.
Qed.

Lemma concat_length_nonempty (ls : list str) :
  Forall (fun l => l <> []) ls -> List.length ls <= List.length (List.concat ls).
Proof.
  induction 1 as [|l ls Hl _ IH]; simpl; [lia|].
  rewrite length_app. destruct l; [congruence | simpl; lia].
Qed.

(** An unbounded repeat of non-empty pieces: the iteration bound the
    matcher uses is never reached. *)
Lemma recognises_star (lo : nat) (r : regex) (L : str -> Prop) :
  recognises (run r) L -> (forall l, L l -> l <> []) ->
  recognises (run (MAX_REPEAT lo None r)) (pieces lo None L).
Proof.
  intros H Hne i j. simpl. rewrite rep_iter. unfold pieces. split.
  - intros [k [Hlo [Hhi Hi]]]. apply (iter_pieces H) in Hi.
    destruct Hi as [ls [Hlen [Hall A]]].
    exists (List.concat ls). split; [exact A|].
    exists ls. subst k. auto.
  - intros [l [A [ls [Hlo [_ [Hall ->]]]]]].
    exists (List.length ls). repeat split; [exact Hlo | |].
    + apply advance_length in A.
      assert (List.length ls <= List.length (List.concat ls)).
      { apply concat_length_nonempty.
        eapply Forall_impl; [|exact Hall]. exact Hne. }
      lia.
    + apply (iter_pieces H). exists ls. auto.
Qed.

End MatcherFacts.

(** ** [domain_pattern] against the label grammar *)

Section PatternFacts.

Import Grammar.

Lemma in_ranges_alnum (c : char) :
  in_ranges [(97, 122); (65, 90); (48, 57)]%N c = is_alnum c.
Proof.
  unfold in_ranges, is_alnum. simpl.
  rewrite orb_false_r, orb_assoc. reflexivity.
Qed.

Lemma in_ranges_alnum_hyphen (c : char) :
  in_ranges [(97, 122); (65, 90); (48, 57); (45, 45)]%N c
  = is_alnum c || is_hyphen c.
Proof.
  unfold in_ranges, is_alnum, is_hyphen. simpl.
  rewrite orb_false_r.
  assert (E : ((45 <=? c) && (c <=? 45))%N = (c =? 45)%N).
  { destruct (N.eqb_spec c 45) as [->|N]; [reflexivity|].
    destruct (N.leb_spec 45 c), (N.leb_spec c 45); simpl; try reflexivity.
    lia. }
  rewrite E, !orb_assoc. reflexivity.
Qed.

Lemma forallb_same (P Q : char -> bool) (m : str) :
  (forall x, P x = Q x) -> forallb P m = forallb Q m.
Proof.
  intros E. induction m as [|c m IH]; simpl; [reflexivity|].
  rewrite E, IH. reflexivity.
Qed.

(** A run of single characters is a word whose characters all qualify. *)
Lemma pieces_of_chars (n : nat) (P : char -> bool) (m : str) :
  pieces 0 (Some n) (one_of P) m
  <-> List.length m <= n /\ forallb P m = true.
Proof.
  unfold pieces, one_of. split.
  - intros [ls [_ [Hn [Hall ->]]]].
    assert (H : List.length (List.concat ls) = List.length ls
                /\ forallb P (List.concat ls) = true).
    { clear Hn. induction Hall as [|l ls [c [-> Hc]] _ [IH1 IH2]]; simpl.
      - auto.
      - rewrite Hc, IH1, IH2. auto. }
    destruct H as [H1 H2]. split; [lia | exact H2].
  - intros [Hn Hall]. exists (map (fun c => [c]) m).
    rewrite length_map. split; [lia|]. split; [exact Hn|].
    clear Hn. induction m as [|c m IH]; simpl in *.
    + split; [constructor | reflexivity].
    + apply andb_true_iff in Hall. destruct Hall as [Hc Hm].
      destruct (IH Hm) as [IH1 IH2]. split.
      * constructor; [exists c; auto | exact IH1].
      * f_equal. exact IH2.
Qed.

Lemma label_pattern_shape :
  recognises (run label_pattern) label_shape.
Proof.
  eapply recognises_ext.
  - unfold label_pattern, alnum_class, alnum_hyphen_class.
    apply recognises_seq; [apply recognises_class|].
    apply recognises_repeat.
    apply recognises_seq; [|apply recognises_class].
    apply recognises_repeat. apply recognises_class.
  - intros l. unfold cat at 1. unfold label_shape. split.
    + intros [a [b [-> [[c [-> Hc]] [ls [_ [Hlen [Hall ->]]]]]]]].
      rewrite in_ranges_alnum in Hc. exists c. split; [exact Hc|].
      destruct ls as [|m ls]; [left; reflexivity|].
      destruct ls; [|simpl in Hlen; lia]. right.
      inversion Hall as [|? ? Hm _]; subst.
      destruct Hm as [m1 [m2 [-> [Hm1 [d [-> Hd]]]]]].
      apply pieces_of_chars in Hm1. destruct Hm1 as [Hl Hf].
      rewrite in_ranges_alnum in Hd.
      exists m1, d. simpl. rewrite app_nil_r.
      repeat split; try assumption.
      rewrite <- Hf. apply forallb_same. intros x.
      symmetry. apply in_ranges_alnum_hyphen.
    + intros [c [Hc [->|[mid [d [-> [Hl [Hf Hd]]]]]]]].
      * exists [c], []. split; [reflexivity|]. split.
        -- exists c. rewrite in_ranges_alnum. auto.
        -- exists []. simpl. repeat split; try lia. constructor.
      * exists [c], (mid ++ [d]). split; [reflexivity|]. split.
        -- exists c. rewrite in_ranges_alnum. auto.
        -- exists [mid ++ [d]]. simpl. rewrite app_nil_r.
           repeat split; try lia.
           constructor; [|constructor].
           exists mid, [d]. split; [reflexivity|]. split.
           ++ apply pieces_of_chars. split; [exact Hl|].
              rewrite <- Hf. apply forallb_same. intros x.
              apply in_ranges_alnum_hyphen.
           ++ exists d. rewrite in_ranges_alnum. auto.
Qed.

Lemma label_shape_ok (l : str) : label_shape l <-> label_ok l = true.
Proof.
  unfold label_shape, label_ok. split.
  - intros [c [Hc [->|[mid [d [-> [Hl [Hf Hd]]]]]]]].
    + simpl. rewrite Hc. reflexivity.
    + rewrite !andb_true_iff. split; [split; [split; [split|]|]|].
      * reflexivity.
      * apply Nat.leb_le. simpl. rewrite length_app. simpl. lia.
      * simpl. rewrite Hc, forallb_app, Hf. simpl. rewrite Hd. reflexivity.
      * exact Hc.
      * simpl. rewrite rev_app_distr. simpl. exact Hd.
  - intros H. repeat (apply andb_true_iff in H; destruct H as [H ?]).
    destruct l as [|c t]; [discriminate|].
    exists c. split; [assumption|].
    destruct (rev t) as [|d r] eqn:Er.
    + left. apply (f_equal (@rev char)) in Er. rewrite rev_involutive in Er.
      subst t. reflexivity.
    + right. apply (f_equal (@rev char)) in Er. rewrite rev_involutive in Er.
      simpl in Er. subst t. exists (rev r), d.
      match goal with Hr : match rev _ with _ => _ end = true |- _ =>
        simpl in Hr; rewrite rev_app_distr in Hr; simpl in Hr end.
      match goal with Hf : forallb _ _ = true |- _ =>
        simpl in Hf; rewrite forallb_app in Hf;
        apply andb_true_iff in Hf; destruct Hf as [_ Hf];
        apply andb_true_iff in Hf; destruct Hf as [Hf _] end.
      match goal with Hl : (_ <=? 63) = true |- _ =>
        apply Nat.leb_le in Hl; simpl in Hl; rewrite length_app in Hl;
        simpl in Hl end.
      repeat split; try assumption. lia.
Qed.

Lemma label_pattern_ok :
  recognises (run label_pattern) (fun l => label_ok l = true).
Proof.
  eapply recognises_ext; [apply label_pattern_shape | apply label_shape_ok].
Qed.

End PatternFacts.

Section DomainFacts.

Import Grammar.

Lemma dotted_cons (l : str) (labels : list str) :
  dotted (l :: labels) = 46%N :: l ++ dotted labels.
Proof. reflexivity. Qed.

Lemma split_sep_absent_app (sep : char) (l r : str) :
  ~ In sep l -> split sep (l ++ sep :: r) = l :: split sep r.
Proof.
  induction l as [|c l IH]; intros H; simpl.
  - rewrite chr_eqb_refl. reflexivity.
  - destruct (chr_eqb c sep) eqn:E.
    + apply chr_eqb_eq in E. exfalso. apply H. left; exact E.
    + rewrite IH; [reflexivity|]. intros Hi. apply H. right; exact Hi.
Qed.

(** Splitting at dots undoes joining with dots. *)
Lemma split_dotted (l0 : str) (labels : list str) :
  ~ In 46%N l0 -> Forall (fun l => ~ In 46%N l) labels ->
  split 46%N (l0 ++ dotted labels) = l0 :: labels.
Proof.
  intros H0 Hall. revert l0 H0.
  induction Hall as [|l labels Hl _ IH]; intros l0 H0.
  - unfold dotted. simpl. rewrite app_nil_r. apply split_absent. exact H0.
  - rewrite dotted_cons.
    rewrite split_sep_absent_app by exact H0.
    rewrite IH by exact Hl. reflexivity.
Qed.

(** Every string is its pieces joined with dots. *)
Lemma dotted_split (d : str) :
  exists l0 labels, split 46%N d = l0 :: labels /\ d = l0 ++ dotted labels.
Proof.
  induction d as [|c d [l0 [labels [Es Ed]]]].
  - exists [], []. split; reflexivity.
  - simpl. destruct (chr_eqb c 46%N) eqn:E.
    + apply chr_eqb_eq in E. subst c.
      exists [], (l0 :: labels). rewrite Es. split; [reflexivity|].
      rewrite dotted_cons, <- Ed. reflexivity.
    + rewrite Es. exists (c :: l0), labels. split; [reflexivity|].
      simpl. rewrite <- Ed. reflexivity.
Qed.

Lemma label_ok_no_dot (l : str) : label_ok l = true -> ~ In 46%N l.
Proof.
  unfold label_ok. intros H Hin.
  repeat (apply andb_true_iff in H; destruct H as [H ?]).
  match goal with Hf : forallb _ _ = true |- _ =>
    rewrite forallb_forall in Hf; specialize (Hf 46%N Hin);
    vm_compute in Hf; discriminate Hf end.
Qed.

Lemma label_ok_nonempty (l : str) : label_ok l = true -> l <> [].
Proof. intros H ->. discriminate H. Qed.

(** The grammar, as a decomposition into labels. *)
Lemma labels_ok_iff (d : str) :
  labels_ok d = true
  <-> exists l0 labels,
        d = l0 ++ dotted labels
        /\ label_ok l0 = true
        /\ Forall (fun l => label_ok l = true) labels.
Proof.
  unfold labels_ok. split.
  - intros H. destruct (dotted_split d) as [l0 [labels [Es Ed]]].
    rewrite Es in H. simpl in H. apply andb_true_iff in H.
    destruct H as [H0 Hl]. exists l0, labels.
    split; [exact Ed|]. split; [exact H0|].
    apply Forall_forall. rewrite forallb_forall in Hl. exact Hl.
  - intros [l0 [labels [-> [H0 Hall]]]].
    rewrite split_dotted.
    + simpl. rewrite H0. simpl. apply forallb_forall.
      apply Forall_forall. exact Hall.
    + apply label_ok_no_dot. exact H0.
    + eapply Forall_impl; [|exact Hall]. apply label_ok_no_dot.
Qed.

(** The words of [(\.label)*]. *)
Lemma dot_labels_pieces (tail : str) :
  pieces 0 None
    (cat (one_of (fun c => chr_eqb c 46%N)) (fun l => label_ok l = true)) tail
  <-> exists labels,
        Forall (fun l => label_ok l = true) labels /\ tail = dotted labels.
Proof.
  unfold pieces. split.
  - intros [ls [_ [_ [Hall ->]]]].
    induction Hall as [|m ls Hm _ [labels [IH1 IH2]]].
    + exists []. split; [constructor | reflexivity].
    + destruct Hm as [a [l [-> [[c [-> Hc]] Hl]]]].
      apply chr_eqb_eq in Hc. subst c.
      exists (l :: labels). split; [constructor; assumption|].
      rewrite dotted_cons, <- IH2. reflexivity.
  - intros [labels [Hall ->]].
    exists (map (cons 46%N) labels). split; [lia|]. split; [exact I|].
    split; [|reflexivity].
    induction Hall as [|l labels Hl _ IH]; simpl; constructor; [|exact IH].
    exists [46%N], l. split; [reflexivity|]. split; [|exact Hl].
    exists 46%N. split; [reflexivity | apply chr_eqb_refl].
Qed.

Lemma at_end_iff (r : str) : at_end r = true <-> r = [] \/ r = [10%N].
Proof.
  destruct r as [|c [|c' r]]; simpl.
  - tauto.
  - rewrite chr_eqb_eq. split.
    + intros ->. right; reflexivity.
    + intros [E|E]; [discriminate E | congruence].
  - split; [discriminate | intros [E|E]; discriminate E].
Qed.

(** What [re.match(domain_pattern, s)] accepts: a dotted sequence of labels,
    possibly followed by one newline. *)
Lemma domain_pattern_accepts (s : str) :
  (exists j, re_match domain_pattern s = Some j)
  <-> exists g r, s = g ++ r /\ labels_ok g = true /\ (r = [] \/ r = [10%N]).
Proof.
  assert (Hstar : recognises
            (run (MAX_REPEAT 0 None (SEQ (LITERAL 46%N) label_pattern)))
            (pieces 0 None
               (cat (one_of (fun c => chr_eqb c 46%N))
                    (fun l => label_ok l = true)))).
  { apply recognises_star.
    - apply recognises_seq; [apply recognises_literal | apply label_pattern_ok].
    - intros l [a [b [-> [[c [-> _]] _]]]]. discriminate. }
  assert (Hrun : forall j,
            In j (run domain_pattern (mkInput 0 s))
            <-> exists x, In x (run label_pattern (mkInput 0 s))
                          /\ In j (run (MAX_REPEAT 0 None
                                          (SEQ (LITERAL 46%N) label_pattern)) x)
                          /\ at_end (rest j) = true).
  { intros j. unfold domain_pattern.
    change (run (SEQ AT_BEGINNING ?r) (mkInput 0 s))
      with (run r (mkInput 0 s) ++ []).
    rewrite app_nil_r.
    change (run (SEQ label_pattern ?r) ?i)
      with (flat_map (run r) (run label_pattern i)).
    rewrite in_flat_map. split.
    - intros [x [Hx Hj]]. exists x. split; [exact Hx|].
      change (run (SEQ ?a AT_END) x)
        with (flat_map (run AT_END) (run a x)) in Hj.
      apply in_flat_map in Hj. destruct Hj as [y [Hy Hj]].
      simpl in Hj. destruct (at_end (rest y)) eqn:E; [|destruct Hj].
      destruct Hj as [<-|[]]. auto.
    - intros [x [Hx [Hj E]]]. exists x. split; [exact Hx|].
      change (run (SEQ ?a AT_END) x)
        with (flat_map (run AT_END) (run a x)).
      apply in_flat_map. exists j. split; [exact Hj|].
      simpl. rewrite E. left; reflexivity. }
  unfold re_match. split.
  - intros [j Hj].
    assert (Hin : In j (run domain_pattern (mkInput 0 s))).
    { destruct (run domain_pattern (mkInput 0 s)); [discriminate Hj|].
      injection Hj as ->. left; reflexivity. }
    apply Hrun in Hin. destruct Hin as [x [Hx [Hy He]]].
    apply label_pattern_ok in Hx. destruct Hx as [l0 [[E0 _] H0]].
    apply Hstar in Hy. destruct Hy as [tail [[E1 _] Ht]].
    apply dot_labels_pieces in Ht. destruct Ht as [labels [Hall ->]].
    simpl in E0. exists (l0 ++ dotted labels), (rest j).
    split; [rewrite E0, E1, app_assoc; reflexivity|].
    split; [|apply at_end_iff; exact He].
    apply labels_ok_iff. exists l0, labels. auto.
  - intros [g [r [-> [Hg Hr]]]].
    apply labels_ok_iff in Hg. destruct Hg as [l0 [labels [-> [H0 Hall]]]].
    set (x := mkInput (List.length l0) (dotted labels ++ r)).
    set (j := mkInput (List.length l0 + List.length (dotted labels)) r).
    assert (Hin : In j (run domain_pattern
                          (mkInput 0 ((l0 ++ dotted labels) ++ r)))).
    { apply Hrun. exists x. split; [|split].
      - apply label_pattern_ok. exists l0. split; [|exact H0].
        split; simpl; [rewrite app_assoc; reflexivity | reflexivity].
      - apply Hstar. exists (dotted labels). split.
        + split; reflexivity.
        + apply dot_labels_pieces. exists labels. auto.
      - apply at_end_iff. exact Hr. }
    destruct (run domain_pattern (mkInput 0 ((l0 ++ dotted labels) ++ r)))
      as [|j0 rest0]; [destruct Hin|].
    exists j0. reflexivity.
Qed.

End DomainFacts.

(** ** [validate_domain] *)

Section ValidateFacts.

Import Grammar.

Lemma labels_ok_nonempty (g : str) : labels_ok g = true -> g <> [].
Proof. intros H ->. discriminate H. Qed.

(** X1: [validate_domain] accepts exactly the names of the grammar and those
    names followed by one newline (within the length limit). *)
Theorem validate_domain_characterised (s : str) :
  validate_domain (Some s) = true
  <-> valid_name (Some s) = true
      \/ exists g, s = g ++ [10%N]
                   /\ valid_name (Some g) = true
                   /\ List.length s <= 253.
Proof.
  assert (Hlen : forall d : str,
            d <> [] -> List.length d <= 253 ->
            negb (Nat.eqb (List.length d) 0) && (List.length d <=? 253) = true).
  { intros d Hd Hl. destruct d; [congruence|].
    apply andb_true_iff. split; [reflexivity | apply Nat.leb_le; exact Hl]. }
  split.
  - intros H. unfold validate_domain in H.
    destruct (negb (truthy (Some s)) || (253 <? List.length s)) eqn:Eg;
      [discriminate H|].
    apply orb_false_iff in Eg. destruct Eg as [_ El].
    apply Nat.ltb_ge in El.
    destruct (re_match domain_pattern s) as [j|] eqn:Em; [|discriminate H].
    assert (Ha : exists j, re_match domain_pattern s = Some j) by eauto.
    apply domain_pattern_accepts in Ha.
    destruct Ha as [g [r [-> [Hg [-> | ->]]]]].
    + left. rewrite app_nil_r in *. simpl.
      rewrite Hlen; [exact Hg | apply labels_ok_nonempty; exact Hg | exact El].
    + right. exists g. split; [reflexivity|]. split; [|exact El].
      simpl. rewrite Hlen; [exact Hg | apply labels_ok_nonempty; exact Hg |].
      rewrite length_app in El. simpl in El. lia.
  - intros H.
    assert (Hs : s <> [] /\ List.length s <= 253
                 /\ exists g r, s = g ++ r /\ labels_ok g = true
                                /\ (r = [] \/ r = [10%N])).
    { destruct H as [H | [g [-> [H Hl]]]]; simpl in H;
        apply andb_true_iff in H; destruct H as [H Hg];
        apply andb_true_iff in H; destruct H as [Hn Hl'];
        apply Nat.leb_le in Hl'.
      - split; [apply labels_ok_nonempty; exact Hg|]. split; [exact Hl'|].
        exists s, []. rewrite app_nil_r. auto.
      - split; [destruct g; discriminate|]. split; [exact Hl|].
        exists g, [10%N]. auto. }
    destruct Hs as [Hne [Hl Ha]].
    apply domain_pattern_accepts in Ha. destruct Ha as [j Hj].
    unfold validate_domain. rewrite Hj.
    destruct s as [|c t]; [congruence|]. simpl truthy. simpl negb.
    rewrite orb_false_l.
    assert (E : (253 <? List.length (c :: t)) = false)
      by (apply Nat.ltb_ge; exact Hl).
    rewrite E. reflexivity.
Qed.

(** The rejections that hold for every input: the absent value, the empty
    string and anything longer than 253 characters. *)
Lemma validate_domain_rejects_absent_empty_long :
  validate_domain None = false
  /\ validate_domain (Some []) = false
  /\ forall s, 253 < List.length s -> validate_domain (Some s) = false.
Proof.
  split; [reflexivity|]. split; [reflexivity|].
  intros s H. unfold validate_domain.
  apply Nat.ltb_lt in H. rewrite H, orb_true_r. reflexivity.
Qed.

(** C2, at the input where the code leaves the grammar: ["google.com\n"]
    is accepted by [validate_domain] although it is not a name of the
    grammar (its last label ends in a newline). *)
Theorem validate_domain_leaves_grammar :
  validate_domain (Some (lit "google.com" ++ [10%N])) = true
  /\ valid_name (Some (lit "google.com" ++ [10%N])) = false
  /\ label_ok (lit "com" ++ [10%N]) = false.
Proof. vm_compute. repeat split. Qed.

(** C10: an accepted input with a character outside the grammar.  On
    ["google.com\n"] the match ends at position 10, in front of the final
    newline, where [$] succeeds; the newline is neither alphanumeric, nor a
    hyphen, nor a dot. *)
Theorem validate_domain_accepts_final_newline :
  let s := lit "google.com" ++ [10%N] in
  validate_domain (Some s) = true
  /\ re_match domain_pattern s = Some (mkInput 10 [10%N])
  /\ at_end [10%N] = true
  /\ last s 0%N = 10%N
  /\ is_alnum 10%N || is_hyphen 10%N || chr_eqb 10%N 46%N = false.
Proof. vm_compute. repeat split. Qed.

End ValidateFacts.

(** * Further properties of the code *)

(** ** [validate_domain]: what an accepted string looks like *)

Section AcceptedNames.

Import Grammar.

Lemma validate_domain_decomposes (s : str) :
  validate_domain (Some s) = true ->
  List.length s <= 253
  /\ exists l0 labels r,
       s = (l0 ++ dotted labels) ++ r
       /\ label_ok l0 = true
       /\ Forall (fun l => label_ok l = true) labels
       /\ (r = [] \/ r = [10%N]).
Proof.
  intros H. unfold validate_domain in H.
  destruct (negb (truthy (Some s)) || (253 <? List.length s)) eqn:Eg;
    [discriminate H|].
  apply orb_false_iff in Eg. destruct Eg as [_ El]. apply Nat.ltb_ge in El.
  split; [exact El|].
  destruct (re_match domain_pattern s) as [j|] eqn:Em; [|discriminate H].
  assert (Ha : exists j, re_match domain_pattern s = Some j) by eauto.
  apply domain_pattern_accepts in Ha. destruct Ha as [g [r [-> [Hg Hr]]]].
  apply labels_ok_iff in Hg. destruct Hg as [l0 [labels [-> [H0 Hall]]]].
  exists l0, labels, r. auto.
Qed.

Lemma label_ok_chars (l : str) (c : char) :
  label_ok l = true -> In c l -> name_char c = true.
Proof.
  unfold label_ok. intros H Hin.
  repeat (apply andb_true_iff in H; destruct H as [H ?]).
  match goal with Hf : forallb _ _ = true |- _ =>
    rewrite forallb_forall in Hf; specialize (Hf c Hin) end.
  unfold name_char. rewrite H2. reflexivity.
Qed.

Lemma label_ok_head (l : str) :
  label_ok l = true -> exists c t, l = c :: t /\ is_alnum c = true.
Proof.
  unfold label_ok. intros H.
  repeat (apply andb_true_iff in H; destruct H as [H ?]).
  destruct l as [|c t]; [discriminate|]. exists c, t. auto.
Qed.

Lemma label_ok_last (l : str) :
  label_ok l = true -> exists t c, l = t ++ [c] /\ is_alnum c = true.
Proof.
  unfold label_ok. intros H.
  repeat (apply andb_true_iff in H; destruct H as [H ?]).
  destruct (rev l) as [|c r] eqn:E; [discriminate|].
  exists (rev r), c. split; [|assumption].
  apply (f_equal (@rev char)) in E. rewrite rev_involutive in E. exact E.
Qed.

Lemma dotted_chars (labels : list str) (c : char) :
  Forall (fun l => label_ok l = true) labels ->
  In c (dotted labels) -> name_char c = true.
Proof.
  induction 1 as [|l labels Hl _ IH]; intros Hin; [destruct Hin|].
  rewrite dotted_cons in Hin. destruct Hin as [<-|Hin]; [reflexivity|].
  apply in_app_or in Hin. destruct Hin as [Hin|Hin].
  - eapply label_ok_chars; eassumption.
  - apply IH. exact Hin.
Qed.

(** A dotted sequence of labels ends in an alphanumeric character. *)
Lemma labels_last (l0 : str) (labels : list str) :
  label_ok l0 = true -> Forall (fun l => label_ok l = true) labels ->
  exists t c, l0 ++ dotted labels = t ++ [c] /\ is_alnum c = true.
Proof.
  intros H0 Hall. revert l0 H0.
  induction Hall as [|l labels Hl _ IH]; intros l0 H0.
  - unfold dotted. simpl. rewrite app_nil_r. apply label_ok_last. exact H0.
  - destruct (IH l Hl) as [t [c [E Hc]]].
    exists (l0 ++ 46%N :: t), c. split; [|exact Hc].
    rewrite dotted_cons.
    change (46%N :: l ++ dotted labels) with ([46%N] ++ (l ++ dotted labels)).
    rewrite E. simpl. rewrite <- app_assoc. reflexivity.
Qed.

Lemma contains_cons (sub : str) (c : char) (t : str) :
  contains sub (c :: t) = startswith sub (c :: t) || contains sub t.
Proof. reflexivity. Qed.

Lemma startswith_cons (x y : char) (p s : str) :
  startswith (x :: p) (y :: s) = chr_eqb x y && startswith p s.
Proof. reflexivity. Qed.

Lemma double_dot_skip (p rest : str) :
  ~ In 46%N p ->
  contains [46%N; 46%N] (p ++ rest) = contains [46%N; 46%N] rest.
Proof.
  induction p as [|c p IH]; intros H; [reflexivity|].
  simpl app. rewrite contains_cons, startswith_cons.
  assert (E : chr_eqb 46%N c = false).
  { destruct (chr_eqb 46%N c) eqn:E; [|reflexivity].
    apply chr_eqb_eq in E. exfalso. apply H. left. symmetry; exact E. }
  rewrite E. simpl. apply IH. intros Hin. apply H. right; exact Hin.
Qed.

Lemma dotted_no_double_dot (labels : list str) (r : str) :
  Forall (fun l => label_ok l = true) labels ->
  r = [] \/ r = [10%N] ->
  contains [46%N; 46%N] (dotted labels ++ r) = false.
Proof.
  intros Hall Hr. induction Hall as [|l labels Hl _ IH].
  - destruct Hr as [->| ->]; reflexivity.
  - rewrite dotted_cons.
    destruct (label_ok_head l Hl) as [c [t [E Hc]]].
    assert (Hd : ~ In 46%N l) by (apply label_ok_no_dot; exact Hl).
    assert (Ec : chr_eqb 46%N c = false).
    { destruct (chr_eqb 46%N c) eqn:Ec; [|reflexivity].
      apply chr_eqb_eq in Ec. exfalso. apply Hd. rewrite E. left.
      symmetry; exact Ec. }
    change ((46%N :: l ++ dotted labels) ++ r)
      with (46%N :: ((l ++ dotted labels) ++ r)).
    rewrite contains_cons, <- app_assoc.
    rewrite (double_dot_skip l (dotted labels ++ r) Hd), IH, orb_false_r.
    rewrite E. simpl app. rewrite !startswith_cons, Ec, andb_false_r.
    reflexivity.
Qed.

(** X2: an accepted string starts with an alphanumeric character (so not
    with a dot or a hyphen), does not end in a dot, has no two dots in a row,
    and consists of letters, digits, hyphens and dots only, but for a final
    newline. *)
Theorem validate_domain_accepted_shape (s : str) :
  validate_domain (Some s) = true ->
  (exists c t, s = c :: t /\ is_alnum c = true)
  /\ (exists t c, s = t ++ [c] /\ (is_alnum c = true \/ c = 10%N))
  /\ contains [46%N; 46%N] s = false
  /\ (forall c, In c s -> name_char c = true \/ c = 10%N).
Proof.
  intros H. apply validate_domain_decomposes in H.
  destruct H as [_ [l0 [labels [r [-> [H0 [Hall Hr]]]]]]].
  split; [|split; [|split]].
  - destruct (label_ok_head l0 H0) as [c [t [-> Hc]]].
    exists c, ((t ++ dotted labels) ++ r). auto.
  - destruct (@labels_last l0 labels H0 Hall) as [t [c [E Hc]]].
    destruct Hr as [->| ->].
    + rewrite app_nil_r. exists t, c. auto.
    + exists (l0 ++ dotted labels), 10%N. auto.
  - rewrite <- app_assoc.
    rewrite double_dot_skip by (apply label_ok_no_dot; exact H0).
    apply dotted_no_double_dot; assumption.
  - intros c Hin. apply in_app_or in Hin. destruct Hin as [Hin|Hin].
    + left. apply in_app_or in Hin. destruct Hin as [Hin|Hin].
      * eapply label_ok_chars; eassumption.
      * eapply dotted_chars; eassumption.
    + right. destruct Hr as [->| ->]; [destruct Hin|].
      destruct Hin as [<-|[]]. reflexivity.
Qed.

Lemma validate_domain_accepted_shape_witness :
  contains [46%N; 46%N] (lit "sub.domain.com") = false.
Proof.
  apply (validate_domain_accepted_shape (lit "sub.domain.com")).
  vm_compute. reflexivity.
Defined.

End AcceptedNames.

(** ** [clean_domain]: what it guarantees and what it leaves alone *)

Section CleanMore.

Import Grammar.

Lemma split_head_no_sep (sep : char) (s : str) :
  ~ In sep (nth 0 (split sep s) []).
Proof.
  induction s as [|c t IH]; simpl; [tauto|].
  destruct (chr_eqb c sep) eqn:E; [simpl; tauto|].
  destruct (split sep t) as [|h r]; simpl in *.
  - intros [H|[]]. subst c. rewrite chr_eqb_refl in E. discriminate E.
  - intros [H|H]; [|exact (IH H)].
    subst c. rewrite chr_eqb_refl in E. discriminate E.
Qed.

(** X3: whatever the input, the cleaned domain contains no slash. *)
Theorem clean_domain_has_no_slash (domain : option str) (out : str) :
  clean_domain domain = Some out -> ~ In 47%N out.
Proof.
  destruct domain as [[|c t]|]; simpl; intros E.
  - injection E as <-. tauto.
  - injection E as <-. apply split_head_no_sep.
  - discriminate E.
Qed.

Lemma clean_domain_has_no_slash_witness :
  ~ In 47%N (lit "github.com").
Proof.
  apply (@clean_domain_has_no_slash
           (Some (lit "https://github.com/user/repo")) (lit "github.com")).
  vm_compute. reflexivity.
Defined.

Lemma name_char_plain (c : char) :
  name_char c = true -> isspace c = false /\ c <> 47%N.
Proof.
  unfold name_char, is_alnum, is_hyphen, chr_eqb, isspace. intros H.
  rewrite !orb_true_iff, !andb_true_iff, !N.leb_le, !N.eqb_eq in H.
  split.
  - apply not_true_iff_false. intros Hs.
    rewrite !orb_true_iff, !andb_true_iff, !N.leb_le, !N.eqb_eq in Hs. lia.
  - lia.
Qed.

Lemma lstrip_plain (s : str) :
  (forall c, In c s -> isspace c = false) -> lstrip s = s.
Proof.
  destruct s as [|c t]; intros H; [reflexivity|].
  simpl. rewrite (H c (or_introl eq_refl)). reflexivity.
Qed.

Lemma strip_plain (s : str) :
  (forall c, In c s -> isspace c = false) -> strip s = s.
Proof.
  intros H. unfold strip, rstrip. rewrite (lstrip_plain s H).
  rewrite lstrip_plain; [apply rev_involutive|].
  intros c Hc. apply H. apply in_rev. exact Hc.
Qed.

Lemma valid_name_chars (s : str) (c : char) :
  valid_name (Some s) = true -> In c s -> name_char c = true.
Proof.
  simpl. intros H Hin. apply andb_true_iff in H. destruct H as [_ Hg].
  apply labels_ok_iff in Hg. destruct Hg as [l0 [labels [-> [H0 Hall]]]].
  apply in_app_or in Hin. destruct Hin as [Hin|Hin].
  - eapply label_ok_chars; eassumption.
  - eapply dotted_chars; eassumption.
Qed.

(** X4: a name of the grammar that does not contain ["www."] is returned
    unchanged. *)
Theorem clean_domain_keeps_plain_names (s : str) :
  valid_name (Some s) = true ->
  contains (lit "www.") s = false ->
  clean_domain (Some s) = Some s.
Proof.
  intros Hv Hw.
  assert (Hp : forall c, In c s -> isspace c = false /\ c <> 47%N).
  { intros c Hin. apply name_char_plain. eapply valid_name_chars; eassumption. }
  assert (Hslash : ~ In 47%N s).
  { intros Hin. destruct (Hp _ Hin) as [_ N]. congruence. }
  destruct s as [|c t]; [reflexivity|].
  unfold clean_domain.
  rewrite strip_plain by (intros x Hx; apply (Hp x Hx)).
  rewrite (replace_absent (lit "http://"))
    by (apply (@contains_needs_char _ _ 47%N); [cbn; tauto | exact Hslash]).
  rewrite (replace_absent (lit "https://"))
    by (apply (@contains_needs_char _ _ 47%N); [cbn; tauto | exact Hslash]).
  rewrite replace_absent by exact Hw.
  rewrite split_absent by exact Hslash. reflexivity.
Qed.

Lemma clean_domain_keeps_plain_names_witness :
  clean_domain (Some (lit "sub.domain.com")) = Some (lit "sub.domain.com").
Proof.
  apply (@clean_domain_keeps_plain_names (lit "sub.domain.com"));
    vm_compute; reflexivity.
Defined.

End CleanMore.

(** ** [fetch_record_type] and [get_dns_records], further *)

Section LookupMore.

Context {R : Resolver}.
Variable quiet : bool.

(** The read of [show_progress] raises exactly when [quiet] is not set and
    the setting cannot be read. *)
Lemma progress_read_raises_iff (cfg : config) :
  (progress_read_raises cfg quiet = true
   <-> quiet = false /\ show_progress cfg = None)
  /\ (progress_read_raises cfg quiet = false
      <-> quiet = true \/ show_progress cfg <> None).
Proof.
  unfold progress_read_raises, progress_wanted.
  destruct quiet; [|destruct (show_progress cfg)]; simpl;
    repeat split; intros; try discriminate; try tauto;
    try (left; reflexivity); try (right; discriminate);
    intuition congruence.
Qed.

(** X5: when [quiet] is set or [show_progress] can be read, one fetch is
    exactly one resolver call, for the given name and type, appended to the
    log, and it returns [None] exactly when that call was answered
    NXDOMAIN.  When [quiet] is not set and reading [show_progress] raises,
    the fetch returns the empty list and calls nothing. *)
Theorem fetch_record_type_one_call (cfg : config) (website t : str)
    (st : state) :
  let run := fetch_record_type cfg website t quiet st in
  let a := fst (resolve website t (st_world st)) in
  (quiet = true \/ show_progress cfg <> None ->
   st_calls (snd run) = st_calls st ++ [mkCall website t a]
   /\ st_world (snd run) = snd (resolve website t (st_world st))
   /\ (fst run = None <-> a = NXDOMAIN))
  /\ (quiet = false /\ show_progress cfg = None -> run = (Some [], st)).
Proof.
  intros run a. unfold run. split.
  - intros Hp. apply (proj2 (progress_read_raises_iff cfg)) in Hp.
    rewrite (fetch_record_type_result quiet cfg website t st Hp). simpl.
    split; [reflexivity|]. split; [reflexivity|]. apply result_of_none.
  - intros Hp. apply (proj1 (progress_read_raises_iff cfg)) in Hp.
    apply (fetch_record_type_silent quiet cfg website t st Hp).
Qed.

Lemma decode_all_total (f : rdata -> option record) (g : rdata -> record)
    (records : list rdata) :
  (forall x, In x records -> f x = Some (g x)) ->
  decode_all f records = Some (map g records).
Proof.
  induction records as [|x xs IH]; intros H; [reflexivity|].
  simpl. rewrite (H x (or_introl eq_refl)).
  rewrite IH; [reflexivity|]. intros y Hy. apply H. right; exact Hy.
Qed.

(** X6: when [quiet] is set or [show_progress] can be read, for a record
    type other than MX and SOA the list returned is the text of every record
    of the answer, in the answer's order. *)
Theorem fetch_record_type_texts cfg website t st records w' :
  quiet = true \/ show_progress cfg <> None ->
  resolve website t (st_world st) = (Answer records, w') ->
  t <> lit "MX" -> t <> lit "SOA" ->
  fst (fetch_record_type cfg website t quiet st)
  = Some (map (fun x => Text (rdata_to_text x)) records).
Proof.
  intros Hp Hr Hmx Hsoa. apply (proj2 (progress_read_raises_iff cfg)) in Hp.
  rewrite (fetch_record_type_result quiet cfg website t st Hp), Hr. simpl.
  apply str_eqb_neq in Hmx. apply str_eqb_neq in Hsoa.
  rewrite Hmx, Hsoa.
  rewrite (@decode_all_total decode_text (fun x => Text (rdata_to_text x)));
    [reflexivity|].
  intros x _. destruct x; reflexivity.
Qed.

(** X7: when [quiet] is set or [show_progress] can be read, an MX answer
    is returned as the (priority, exchange) pairs of its records, in the
    answer's order. *)
Theorem fetch_record_type_mx cfg website st (mxs : list (Z * str * str)) w' :
  quiet = true \/ show_progress cfg <> None ->
  resolve website (lit "MX") (st_world st)
  = (Answer (map (fun m => RData_MX (fst (fst m)) (snd (fst m)) (snd m)) mxs),
     w') ->
  fst (fetch_record_type cfg website (lit "MX") quiet st)
  = Some (map (fun m => MXRecord (fst (fst m)) (snd (fst m))) mxs).
Proof.
  intros Hp Hr. apply (proj2 (progress_read_raises_iff cfg)) in Hp.
  rewrite (fetch_record_type_result quiet cfg website (lit "MX") st Hp), Hr.
  simpl.
  assert (E : decode_all decode_mx
                (map (fun m => RData_MX (fst (fst m)) (snd (fst m)) (snd m)) mxs)
              = Some (map (fun m => MXRecord (fst (fst m)) (snd (fst m))) mxs)).
  { clear Hr. induction mxs as [|m mxs IH]; [reflexivity|].
    simpl. rewrite IH. reflexivity. }
  rewrite E. reflexivity.
Qed.

Lemma loop_trace_none_iff silent website ts d f new res :
  loop_trace silent website ts d f new res ->
  (res = None <->
   exists pre c, new = pre ++ [c] /\ c_answer c = NXDOMAIN).
Proof.
  intros Ht. split.
  - induction Ht as [d f|t ts d f Hs|t ts d f a l new res Hs Hr Ht IH
                    |t ts d f new res Hs Ht IH]; intros E.
    + discriminate E.
    + exists [], (mkCall website t NXDOMAIN). auto.
    + destruct (IH E) as [pre [c [-> Hc]]].
      exists (mkCall website t a :: pre), c. auto.
    + apply IH. exact E.
  - intros [pre [c [E Hc]]].
    assert (Hn : nth_error new (List.length pre) = Some c).
    { rewrite E, nth_error_app2, Nat.sub_diag by lia. reflexivity. }
    destruct (loop_trace_nxdomain Ht _ Hn Hc) as [-> _]. reflexivity.
Qed.

(** X8: the lookup returns [None] in two cases only: the cleaned domain is
    invalid, or the last resolver call it issued was answered NXDOMAIN. *)
Theorem get_dns_records_none_iff cfg raw req st :
  let run := get_dns_records cfg raw req quiet st in
  fst run = None
  <-> validate_domain (clean_domain raw) = false
      \/ exists pre c, calls_since st (snd run) = pre ++ [c]
                       /\ c_answer c = NXDOMAIN.
Proof.
  intros run.
  destruct (get_dns_records_cases quiet cfg raw req st (surjective_pairing run))
    as [[Hv [E Es]] | [Hv [w [rf [_ [E [_ Ht]]]]]]].
  - split; [intros _; left; exact Hv | intros _; exact E].
  - rewrite E. split.
    + intros En. right. apply (loop_trace_none_iff Ht).
      destruct rf; [discriminate En | reflexivity].
    + intros [Hinv | Hlast]; [congruence|].
      apply (loop_trace_none_iff Ht) in Hlast. rewrite Hlast. reflexivity.
Qed.

Lemma loop_trace_some_answers silent website ts d f new d' f' :
  loop_trace silent website ts d f new (Some (d', f')) ->
  Forall (fun c => c_answer c <> NXDOMAIN) new.
Proof.
  remember (Some (d', f')) as res eqn:E. intros H. revert E.
  induction H as [d f|t ts d f Hs|t ts d f a l new res Hs Hr Ht IH
                 |t ts d f new res Hs Ht IH]; intros E.
  - constructor.
  - discriminate E.
  - constructor; [|apply IH; exact E].
    simpl. intros Ea. subst a. discriminate Hr.
  - apply IH. exact E.
Qed.

(** A lookup whose fetches stop before the resolver leaves the state as it
    was. *)
Lemma fetch_all_silent_state cfg website ts :
  progress_read_raises cfg quiet = true ->
  forall d f st, snd (fetch_all cfg website ts quiet d f st) = st.
Proof.
  intros Hs. induction ts as [|t ts IH]; intros d f st; [reflexivity|].
  simpl. rewrite (fetch_record_type_silent quiet cfg website t st Hs).
  apply IH.
Qed.

(** X9: a lookup that returns a dict has cleaned the name to a valid
    domain.  When [quiet] is set or [show_progress] can be read it has issued
    exactly one call per requested type, in the requested order, each for
    that domain, and none of them was answered NXDOMAIN.  When [quiet] is
    not set and reading [show_progress] raises it has issued no call at all,
    has left the state as it was, and every requested key holds the empty
    list. *)
Theorem get_dns_records_success_calls cfg raw req st d st' :
  get_dns_records cfg raw req quiet st = (Some d, st') ->
  exists website,
    clean_domain raw = Some website
    /\ validate_domain (Some website) = true
    /\ st_calls st' = st_calls st ++ calls_since st st'
    /\ (quiet = true \/ show_progress cfg <> None ->
        map c_type (calls_since st st') = types_to_query cfg req
        /\ Forall (fun c => c_website c = website /\ c_answer c <> NXDOMAIN)
             (calls_since st st'))
    /\ (quiet = false /\ show_progress cfg = None ->
        st' = st
        /\ calls_since st st' = []
        /\ forall t, In t (types_to_query cfg req) ->
                     Dict.get (records_key t) d = Some []).
Proof.
  intros H. pose proof H as Hrun. apply get_dns_records_cases in H.
  destruct H as [[_ [E _]] | [Hv [w [rf [Hc [E [Hcalls Ht]]]]]]];
    [discriminate E|].
  destruct rf as [[d' f']|]; [|discriminate E]. injection E as ->.
  exists w. split; [exact Hc|]. split; [rewrite <- Hc; exact Hv|].
  split; [exact Hcalls|]. split.
  - intros Hp. apply (proj2 (progress_read_raises_iff cfg)) in Hp.
    rewrite Hp in Ht. split; [apply (loop_trace_complete Ht eq_refl)|].
    destruct (loop_trace_prefix Ht) as [_ Hw].
    pose proof (loop_trace_some_answers Ht) as Ha.
    rewrite Forall_forall in *. intros c Hin.
    split; [apply Hw | apply Ha]; exact Hin.
  - intros Hp. apply (proj1 (progress_read_raises_iff cfg)) in Hp.
    rewrite Hp in Ht.
    destruct (loop_trace_silent Ht eq_refl) as [Hnil _].
    assert (Est : st' = st).
    { unfold get_dns_records, get_dns_records_flag in Hrun.
      rewrite Hv, Hc in Hrun. simpl in Hrun.
      pose proof (fetch_all_silent_state cfg w (types_to_query cfg req) Hp
                    [] false st) as Es.
      destruct (fetch_all cfg w (types_to_query cfg req) quiet [] false st)
        as [r1 st1]. simpl in Es. injection Hrun as _ <-. exact Es. }
    split; [exact Est|]. split; [exact Hnil|].
    rewrite Hnil in Ht.
    destruct (loop_trace_all_nodata Ht (Forall_nil _)) as [d0 [E0 Hvals]].
    injection E0 as <-. specialize (Hvals (Forall_nil _)).
    intros t Hin.
    assert (Hin' : In (records_key t) (Dict.keys d')).
    { rewrite (loop_trace_keys Ht). apply fold_insert_in.
      right. apply in_map. exact Hin. }
    apply dict_get_in_keys in Hin'. destruct Hin' as [v [Hg Hvin]].
    rewrite Forall_forall in Hvals. rewrite (Hvals v Hvin) in Hg. exact Hg.
Qed.

(** X10: whatever the outcome, the calls of a lookup are for the cleaned
    domain and for an initial segment of the requested types: no type is
    queried that was not requested, none twice for one request, none out of
    order. *)
Theorem get_dns_records_calls_within_request cfg raw req st :
  let calls := calls_since st (snd (get_dns_records cfg raw req quiet st)) in
  (forall c, In c calls -> clean_domain raw = Some (c_website c))
  /\ map c_type calls = firstn (List.length calls) (types_to_query cfg req).
Proof.
  intros calls. unfold calls.
  destruct (get_dns_records_cases quiet cfg raw req st
              (surjective_pairing (get_dns_records cfg raw req quiet st)))
    as [[_ [_ Es]] | [_ [w [rf [Hc [_ [_ Ht]]]]]]].
  - rewrite Es, calls_since_same. split; [intros c []| reflexivity].
  - destruct (loop_trace_prefix Ht) as [Hp Hw]. split; [|exact Hp].
    intros c Hin. rewrite Forall_forall in Hw. rewrite (Hw c Hin). exact Hc.
Qed.

(** X11: in a returned dict, the list under a type's key is what
    [fetch_record_type] made of the answer to the last call for that
    type. *)
Theorem get_dns_records_values cfg raw req st d st' i c :
  get_dns_records cfg raw req quiet st = (Some d, st') ->
  nth_error (calls_since st st') i = Some c ->
  (forall j c', i < j -> nth_error (calls_since st st') j = Some c' ->
                c_type c' <> c_type c) ->
  Dict.get (records_key (c_type c)) d = result_of (c_type c) (c_answer c).
Proof.
  intros H Hn Hlast. apply get_dns_records_cases in H.
  destruct H as [[_ [E _]] | [_ [w [rf [_ [E [_ Ht]]]]]]]; [discriminate E|].
  destruct rf as [[d' f']|]; [|discriminate E]. injection E as ->.
  apply (loop_trace_get_last Ht Hn Hlast).
Qed.

Lemma loop_trace_flag_value silent website ts d f new d' f' :
  loop_trace silent website ts d f new (Some (d', f')) ->
  f' = f || existsb call_found new.
Proof.
  remember (Some (d', f')) as res eqn:E. intros H. revert E.
  induction H as [d f|t ts d f Hs|t ts d f a l new res Hs Hr Ht IH
                 |t ts d f new res Hs Ht IH]; intros E;
    [| | |apply IH; exact E].
  - injection E as <- <-. rewrite orb_false_r. reflexivity.
  - discriminate E.
  - rewrite (IH E).
    change (existsb call_found (mkCall website t a :: new))
      with (call_found (mkCall website t a) || existsb call_found new).
    assert (Ec : call_found (mkCall website t a) = nonempty l).
    { unfold call_found. cbn [c_type c_answer]. rewrite Hr.
      destruct l; reflexivity. }
    rewrite Ec, orb_assoc. reflexivity.
Qed.

(** X12: [domain_exists] is true at the end of the loop exactly when some
    call brought back at least one record; so the "exists but has no
    standard DNS records" warning concerns the lookups in which every call
    came back empty. *)
Theorem get_dns_records_domain_exists cfg raw req st d flag st' :
  get_dns_records_flag cfg raw req quiet st = (Some (d, flag), st') ->
  flag = existsb call_found (calls_since st st').
Proof.
  intros H.
  destruct (validate_domain (clean_domain raw)) eqn:Hv.
  - destruct (get_dns_records_flag_valid _ _ _ _ _ Hv H) as [w [_ [_ Ht]]].
    apply (loop_trace_flag_value Ht).
  - rewrite get_dns_records_flag_invalid in H by exact Hv. discriminate H.
Qed.

End LookupMore.

Section LookupMoreFixtures.

Lemma fetch_record_type_one_call_witness :
  let st := scripted_state [Answer [RData (lit "192.168.1.1")]] in
  fetch_record_type (R := scripted) (mkConfig [lit "A"] None)
    (lit "example.com") (lit "A") false st
  = (Some [], st).
Proof.
  intros st.
  refine (proj2 (@fetch_record_type_one_call scripted false
                   (mkConfig [lit "A"] None) (lit "example.com") (lit "A") st)
            _).
  split; reflexivity.
Defined.

Lemma fetch_record_type_texts_witness :
  fst (fetch_record_type (R := scripted) test_config (lit "example.com")
         (lit "A") false (scripted_state [Answer [RData (lit "192.168.1.1")]]))
  = Some [Text (lit "192.168.1.1")].
Proof.
  apply (@fetch_record_type_texts scripted false test_config
           (lit "example.com") (lit "A")
           (scripted_state [Answer [RData (lit "192.168.1.1")]])
           [RData (lit "192.168.1.1")] []).
  - right. discriminate.
  - reflexivity.
  - vm_compute. discriminate.
  - vm_compute. discriminate.
Defined.

Lemma fetch_record_type_mx_witness :
  fst (fetch_record_type (R := scripted) test_config (lit "example.com")
         (lit "MX") true (scripted_state [mx_answer]))
  = Some [MXRecord 10 (lit "mail.example.com")].
Proof.
  apply (@fetch_record_type_mx scripted true test_config (lit "example.com")
           (scripted_state [mx_answer])
           [(10%Z, lit "mail.example.com", lit "10 mail.example.com")] []).
  - left. reflexivity.
  - reflexivity.
Defined.

Lemma get_dns_records_success_calls_witness :
  let st := scripted_state [NoAnswer; mx_answer; OtherError] in
  let run := get_dns_records (R := scripted) test_config
               (Some (lit "https://www.example.com/path")) None true st in
  exists website,
    clean_domain (Some (lit "https://www.example.com/path")) = Some website
    /\ validate_domain (Some website) = true
    /\ st_calls (snd run) = st_calls st ++ calls_since st (snd run)
    /\ (true = true \/ show_progress test_config <> None ->
        map c_type (calls_since st (snd run)) = types_to_query test_config None
        /\ Forall (fun c => c_website c = website /\ c_answer c <> NXDOMAIN)
             (calls_since st (snd run)))
    /\ (true = false /\ show_progress test_config = None ->
        snd run = st
        /\ calls_since st (snd run) = []
        /\ forall t, In t (types_to_query test_config None) ->
                     Dict.get (records_key t)
                       [(lit "A_Records", []);
                        (lit "MX_Records", [MXRecord 10 (lit "mail.example.com")]);
                        (lit "NS_Records", [])] = Some []).
Proof.
  intros st run.
  apply (@get_dns_records_success_calls scripted true test_config
           (Some (lit "https://www.example.com/path")) None st
           [(lit "A_Records", []);
            (lit "MX_Records", [MXRecord 10 (lit "mail.example.com")]);
            (lit "NS_Records", [])]
           (snd run)).
  vm_compute. reflexivity.
Defined.

Lemma get_dns_records_values_witness :
  let d : records_dict :=
    [(lit "A_Records", []);
     (lit "MX_Records", [MXRecord 10 (lit "mail.example.com")]);
     (lit "NS_Records", [])] in
  Dict.get (records_key (lit "MX")) d
  = result_of (lit "MX") mx_answer.
Proof.
  intros d.
  pose (st := scripted_state [NoAnswer; mx_answer; OtherError]).
  apply (@get_dns_records_values scripted true test_config example_com None st d
           (snd (get_dns_records (R := scripted) test_config example_com None
                   true st))
           1 (mkCall (lit "example.com") (lit "MX") mx_answer)).
  - vm_compute. reflexivity.
  - vm_compute. reflexivity.
  - intros j c' Hj Hn.
    destruct j as [|[|[|j]]]; [lia | lia | | ].
    + vm_compute in Hn. injection Hn as <-. vm_compute. discriminate.
    + vm_compute in Hn. destruct j; discriminate Hn.
Defined.

Lemma get_dns_records_domain_exists_witness :
  let st := scripted_state [NoAnswer; mx_answer; OtherError] in
  true = existsb call_found
           (calls_since st
              (snd (get_dns_records_flag (R := scripted) test_config
                      example_com None true st))).
Proof.
  intros st.
  apply (@get_dns_records_domain_exists scripted true test_config example_com
           None st
           [(lit "A_Records", []);
            (lit "MX_Records", [MXRecord 10 (lit "mail.example.com")]);
            (lit "NS_Records", [])]
           true
           (snd (get_dns_records_flag (R := scripted) test_config
                   example_com None true st))).
  vm_compute. reflexivity.
Defined.

End LookupMoreFixtures.

(** ** The script [dns_record.py] against the class *)

Section ScriptFacts.

Context {R : Resolver}.

Lemma script_fetch_record_type_result (website t description emoji : str)
    (st : state) :
  Script.fetch_record_type website t description emoji st
  = (result_of t (fst (resolve website t (st_world st))),
     mkState (snd (resolve website t (st_world st)))
             (st_calls st
              ++ [mkCall website t (fst (resolve website t (st_world st)))])).
Proof.
  unfold Script.fetch_record_type, result_of.
  destruct (resolve website t (st_world st)) as [a w']. simpl.
  destruct a as [records| | |]; try reflexivity.
  destruct (str_eqb t (lit "MX"));
    [|destruct (str_eqb t (lit "SOA"))];
    match goal with |- context [decode_all ?f ?l] =>
      destruct (decode_all f l) end; reflexivity.
Qed.

Lemma script_fetch_all_same (cfg : config) (quiet : bool) (website : str)
    (types : list (str * str * str)) :
  progress_read_raises cfg quiet = false ->
  forall d f st,
  Script.fetch_all website types d f st
  = fetch_all cfg website (map (fun x => fst (fst x)) types) quiet d f st.
Proof.
  intros Hp.
  induction types as [|[[t description] emoji] types IH]; intros d f st;
    [reflexivity|].
  simpl.
  rewrite script_fetch_record_type_result.
  rewrite (fetch_record_type_result quiet cfg website t st Hp).
  destruct (result_of t (fst (resolve website t (st_world st))))
    as [[|x l]|]; [apply IH | apply IH | reflexivity].
Qed.

(** X13: with the same resolver, and when [quiet] is set or the class can
    read its [show_progress] setting, the script's lookup applied to the
    cleaned name (as its [main] does) returns what the class's lookup
    returns for the raw name with the default record types, and issues the
    same calls. *)
Theorem script_lookup_agrees_with_class (raw : option str) (quiet : bool)
    (progress : option bool) (st : state) :
  quiet = true \/ progress <> None ->
  Script.get_dns_records (clean_domain raw) st
  = get_dns_records
      (mkConfig (map lit ["A"; "AAAA"; "CNAME"; "MX"; "NS"; "TXT"; "SOA"]%string)
                progress)
      raw None quiet st.
Proof.
  intros Hp.
  assert (Hs : progress_read_raises
                 (mkConfig
                    (map lit ["A"; "AAAA"; "CNAME"; "MX"; "NS"; "TXT"; "SOA"]%string)
                    progress) quiet = false).
  { unfold progress_read_raises, progress_wanted. simpl.
    destruct quiet; [reflexivity|].
    destruct progress; [reflexivity|].
    destruct Hp as [Hp|Hp]; [discriminate Hp | congruence]. }
  unfold Script.get_dns_records, get_dns_records, get_dns_records_flag.
  destruct (clean_domain raw) as [w|]; [|reflexivity].
  destruct (validate_domain (Some w)); cbn [negb]; [|reflexivity].
  rewrite (script_fetch_all_same _ _ w Script.record_types Hs). reflexivity.
Qed.

End ScriptFacts.

Lemma script_lookup_agrees_with_class_witness :
  let st := scripted_state [NoAnswer; mx_answer] in
  Script.get_dns_records (R := scripted) (clean_domain example_com) st
  = get_dns_records (R := scripted)
      (mkConfig (map lit ["A"; "AAAA"; "CNAME"; "MX"; "NS"; "TXT"; "SOA"]%string)
                None)
      example_com None true st.
Proof.
  intros st.
  apply (@script_lookup_agrees_with_class scripted example_com true None st).
  left. reflexivity.
Defined.

Section FilterFacts.

Lemma filter_fold_get (d : records_dict) (requested : list str) :
  forall (acc : records_dict) (k : str),
  Dict.get k (fold_left (Script.filter_step d) requested acc)
  = if existsb (str_eqb k) (map records_key requested)
    then match Dict.get k d with
         | Some v => Some v
         | None => Dict.get k acc
         end
    else Dict.get k acc.
Proof.
  induction requested as [|t requested IH]; intros acc k; [reflexivity|].
  simpl fold_left. rewrite IH. simpl map. simpl existsb.
  unfold Script.filter_step.
  destruct (str_eqb k (records_key t)) eqn:E.
  - apply str_eqb_eq in E. subst k. rewrite orb_true_l.
    destruct (Dict.get (records_key t) d) as [v|] eqn:G.
    + rewrite dict_get_set_same.
      destruct (existsb _ _); reflexivity.
    + destruct (existsb _ _); reflexivity.
  - rewrite orb_false_l. apply str_eqb_neq in E.
    destruct (Dict.get (records_key t) d) as [v|] eqn:G.
    + rewrite dict_get_set_other by congruence. reflexivity.
    + reflexivity.
Qed.

Lemma filter_fold_keys (d : records_dict) (requested : list str) :
  forall acc : records_dict,
  Dict.keys (fold_left (Script.filter_step d) requested acc)
  = fold_left insert_key
      (filter (fun k => match Dict.get k d with Some _ => true | None => false end)
         (map records_key requested))
      (Dict.keys acc).
Proof.
  induction requested as [|t requested IH]; intros acc; [reflexivity|].
  simpl fold_left. rewrite IH. simpl map. simpl filter. unfold Script.filter_step.
  destruct (Dict.get (records_key t) d) as [v|]; [|reflexivity].
  simpl fold_left. rewrite dict_keys_set. reflexivity.
Qed.

(** X14: the script's [--records] filter keeps exactly the requested keys
    that the lookup result has, each with its value unchanged, in the order
    of their first request. *)
Theorem filter_records_keeps_requested (requested : list str)
    (d : records_dict) :
  (forall t, In t requested ->
     Dict.get (records_key t) (Script.filter_records requested d)
     = Dict.get (records_key t) d)
  /\ (forall k, ~ In k (map records_key requested) ->
        Dict.get k (Script.filter_records requested d) = None)
  /\ Dict.keys (Script.filter_records requested d)
     = first_occurrences
         (filter (fun k => match Dict.get k d with
                           | Some _ => true
                           | None => false
                           end)
            (map records_key requested)).
Proof.
  unfold Script.filter_records.
  split; [|split].
  - intros t Hin. rewrite filter_fold_get.
    assert (E : existsb (str_eqb (records_key t)) (map records_key requested)
                = true).
    { apply existsb_str_eqb. apply in_map. exact Hin. }
    rewrite E. destruct (Dict.get (records_key t) d); reflexivity.
  - intros k Hk. rewrite filter_fold_get.
    destruct (existsb (str_eqb k) (map records_key requested)) eqn:E;
      [|reflexivity].
    apply existsb_str_eqb in E. contradiction.
  - apply filter_fold_keys.
Qed.

End FilterFacts.

(** ** Display helpers *)

Section DisplayFacts.

Import Display.

(** X15: with a maximal length of at least 3, the displayed TXT value is
    never longer than that: a value that fits is shown as it is, a longer
    one is cut to [max_length - 3] characters followed by three dots. *)
Theorem display_txt_bounded (max_length : Z) (txt : str) :
  (3 <= max_length)%Z ->
  List.length (display_txt max_length txt) <= Z.to_nat max_length
  /\ ((Z.of_nat (List.length txt) <= max_length)%Z ->
      display_txt max_length txt = txt)
  /\ ((max_length < Z.of_nat (List.length txt))%Z ->
      display_txt max_length txt
      = firstn (Z.to_nat (max_length - 3)) txt ++ lit "..."
      /\ List.length (display_txt max_length txt) = Z.to_nat max_length).
Proof.
  intros Hm. unfold display_txt, slice_until.
  destruct (Z.leb_spec (Z.of_nat (List.length txt)) max_length) as [Hfit|Hlong].
  - split; [lia|]. split; [reflexivity | lia].
  - destruct (Z.leb_spec 0 (max_length - 3)) as [_|Hneg]; [|lia].
    assert (Hlen : List.length (firstn (Z.to_nat (max_length - 3)) txt ++ lit "...")
                   = Z.to_nat max_length).
    { rewrite length_app, length_firstn.
      change (List.length (lit "...")) with 3. lia. }
    split; [lia|]. split; [lia | auto].
Qed.

Lemma display_txt_bounded_witness :
  List.length (display_txt 10 (lit "v=spf1 include:_spf.example.com ~all"))
  <= Z.to_nat 10.
Proof.
  apply (@display_txt_bounded 10%Z (lit "v=spf1 include:_spf.example.com ~all")).
  lia.
Defined.

(** X16: the server cell of the MX table is 47 characters wide for an
    exchange name of at most 45 characters, and 48 wide (45 characters and
    three dots) for a longer one. *)
Theorem mx_server_cell_width (exchange : str) :
  List.length (mx_server_cell exchange)
  = if 45 <? List.length exchange then 48 else 47.
Proof.
  unfold mx_server_cell, mx_server, ljust.
  destruct (Nat.ltb_spec 45 (List.length exchange)) as [Hlong|Hfit].
  - rewrite !length_app, length_firstn, repeat_length.
    change (List.length (lit "...")) with 3. lia.
  - rewrite length_app, repeat_length. lia.
Qed.

Lemma create_table_row_fold (cws : list (str * nat)) :
  forall row : str,
  List.length
    (fold_left
       (fun row cw => row ++ [32%N] ++ ljust (snd cw) (fst cw) ++ [32%N; 9474%N])
       cws row)
  = List.length row
    + list_sum (map (fun cw => 3 + Nat.max (List.length (fst cw)) (snd cw)) cws).
Proof.
  induction cws as [|[c w] cws IH]; intros row; simpl fold_left.
  - simpl. unfold char. lia.
  - rewrite IH. cbn [map list_sum fold_right fst snd].
    unfold ljust.
    repeat first [rewrite length_app | rewrite repeat_length
                 | progress cbn [List.length]].
    rewrite (Nat.add_assoc (List.length row)).
    f_equal. unfold str, char. lia.
Qed.

Lemma create_table_row_cells (cws : list (str * nat)) :
  forall row : str,
  fold_left
    (fun row cw => row ++ [32%N] ++ ljust (snd cw) (fst cw) ++ [32%N; 9474%N])
    cws row
  = row
    ++ flat_map
         (fun cw =>
            32%N :: fst cw
            ++ repeat 32%N (snd cw - List.length (fst cw))
            ++ [32%N; 9474%N])
         cws.
Proof.
  induction cws as [|[c w] cws IH]; intros row; simpl fold_left.
  - simpl. rewrite app_nil_r. reflexivity.
  - rewrite IH. cbn [flat_map fst snd]. unfold ljust.
    rewrite <- !app_assoc. reflexivity.
Qed.

(** X17: a table row is one bar (U+2502) followed, for each column that
    has a width, in order, by a space, the whole column (never cut), the
    spaces that pad it on the right to its width, a space and a bar; columns
    beyond the widths (and widths beyond the columns) give nothing; so the
    row's length is one plus, per column, three plus the larger of the
    column's length and its width. *)
Theorem create_table_row_shape (columns : list str) (widths : list nat) :
  create_table_row columns widths
  = 9474%N
    :: flat_map
         (fun cw =>
            32%N :: fst cw
            ++ repeat 32%N (snd cw - List.length (fst cw))
            ++ [32%N; 9474%N])
         (combine columns widths)
  /\ List.length (combine columns widths)
     = Nat.min (List.length columns) (List.length widths)
  /\ List.length (create_table_row columns widths)
     = 1 + list_sum (map (fun cw => 3 + Nat.max (List.length (fst cw)) (snd cw))
                       (combine columns widths)).
Proof.
  split; [|split].
  - unfold create_table_row. rewrite create_table_row_cells. reflexivity.
  - apply length_combine.
  - unfold create_table_row. rewrite create_table_row_fold. reflexivity.
Qed.

End DisplayFacts.

Lemma dict_get_in_values {V} (k : str) (v : V) (d : Dict.dict V) :
  Dict.get k d = Some v -> In v (Dict.values d).
Proof.
  induction d as [|[k' v'] d IH]; simpl; [discriminate|].
  destruct (str_eqb k' k).
  - intros E; injection E as ->. left; reflexivity.
  - intros E. right. apply IH. exact E.
Qed.

Lemma dict_in_get {V} (k : str) (v : V) (d : Dict.dict V) :
  NoDup (Dict.keys d) -> In (k, v) d -> Dict.get k d = Some v.
Proof.
  induction d as [|[k' v'] d IH]; simpl; intros Hnd Hin; [destruct Hin|].
  inversion Hnd as [|? ? Hk Hnd']; subst.
  destruct Hin as [E|Hin].
  - injection E as -> ->. rewrite str_eqb_refl. reflexivity.
  - destruct (str_eqb k' k) eqn:E.
    + apply str_eqb_eq in E. subst k'. exfalso. apply Hk.
      apply (in_map fst) in Hin. exact Hin.
    + apply IH; assumption.
Qed.

Lemma dict_set_same {V} (k : str) (v : V) (d : Dict.dict V) :
  Dict.get k d = Some v -> Dict.set k v d = d.
Proof.
  induction d as [|[k' v'] d IH]; simpl; [discriminate|].
  destruct (str_eqb k' k).
  - intros E; injection E as ->. reflexivity.
  - intros E. rewrite IH by exact E. reflexivity.
Qed.

Lemma dict_set_set {V} (k : str) (v v' : V) (d : Dict.dict V) :
  Dict.set k v (Dict.set k v' d) = Dict.set k v d.
Proof.
  induction d as [|[k0 v0] d IH]; simpl.
  - rewrite str_eqb_refl. reflexivity.
  - destruct (str_eqb k0 k) eqn:E; simpl; rewrite E; [reflexivity|].
    rewrite IH. reflexivity.
Qed.

(** ** What [display_records] reports against the lookup's outcome *)

Section HasRecordsFacts.

Import Display.
Context {R : Resolver}.
Variable quiet : bool.

(** X18: for a returned dict, [has_records] implies that some list is
    non-empty, and when only standard record types were requested the two are
    equivalent: "No DNS records found" is then printed exactly for the
    results without any record. *)
Theorem has_records_matches_outcome cfg raw req st d st' :
  get_dns_records cfg raw req quiet st = (Some d, st') ->
  (has_records d = true -> outcome_of (Some d) = Found)
  /\ ((forall t, In t (types_to_query cfg req) -> In t standard_types) ->
      outcome_of (Some d) = Found -> has_records d = true).
Proof.
  intros H. split.
  - clear H. unfold has_records. intros Hh.
    apply existsb_exists in Hh. destruct Hh as [t [_ Ht]].
    destruct (Dict.get (records_key t) d) as [[|x l]|] eqn:G;
      try discriminate Ht.
    apply dict_get_in_values in G. simpl.
    assert (E : existsb nonempty (Dict.values d) = true).
    { apply existsb_exists. exists (x :: l). auto. }
    rewrite E. reflexivity.
  - intros Hstd Ho. apply get_dns_records_cases in H.
    destruct H as [[_ [E _]] | [_ [w [rf [_ [E [_ Ht]]]]]]]; [discriminate E|].
    destruct rf as [[d' f']|]; [|discriminate E]. injection E as ->.
    pose proof (loop_trace_keys Ht) as Hk. simpl in Hk.
    assert (Hnd : NoDup (Dict.keys d')).
    { rewrite Hk. apply fold_insert_nodup. constructor. }
    simpl in Ho.
    destruct (existsb nonempty (Dict.values d')) eqn:Ex; [|discriminate Ho].
    apply existsb_exists in Ex. destruct Ex as [v [Hv Hne]].
    unfold Dict.values in Hv. apply in_map_iff in Hv.
    destruct Hv as [[k v'] [Ev Hin]]. simpl in Ev. subst v'.
    assert (Hkin : In k (Dict.keys d')) by (apply (in_map fst) in Hin; exact Hin).
    rewrite Hk in Hkin. apply fold_insert_in in Hkin.
    destruct Hkin as [[]|Hkin]. apply in_map_iff in Hkin.
    destruct Hkin as [t [<- Htin]].
    unfold has_records. apply existsb_exists. exists t.
    split; [apply Hstd; exact Htin|].
    rewrite (dict_in_get _ _ _ Hnd Hin). destruct v; [discriminate Hne | reflexivity].
Qed.

End HasRecordsFacts.

Lemma has_records_matches_outcome_witness :
  let d : records_dict :=
    [(lit "A_Records", []);
     (lit "MX_Records", [MXRecord 10 (lit "mail.example.com")]);
     (lit "NS_Records", [])] in
  outcome_of (Some d) = Found.
Proof.
  intros d.
  pose (st := scripted_state [NoAnswer; mx_answer; OtherError]).
  refine (proj1 (@has_records_matches_outcome scripted true test_config
                   example_com None st d
                   (snd (get_dns_records (R := scripted) test_config
                           example_com None true st)) _) _).
  - vm_compute. reflexivity.
  - vm_compute. reflexivity.
Defined.

(** ** The rows of [export_to_csv] *)

Section CsvFacts.

Import Csv.





End CsvFacts.

(** ** [load_config] *)

Section ConfigFacts.

Import Config.

Lemma dict_get_none {V} (k : str) (d : Dict.dict V) :
  ~ In k (Dict.keys d) -> Dict.get k d = None.
Proof.
  induction d as [|[k' v'] d IH]; simpl; intros H; [reflexivity|].
  destruct (str_eqb k' k) eqn:E.
  - apply str_eqb_eq in E. exfalso. apply H. left; exact E.
  - apply IH. intros Hin. apply H. right; exact Hin.
Qed.

Lemma dict_get_in {V} (k : str) (v : V) (d : Dict.dict V) :
  Dict.get k d = Some v -> In (k, v) d.
Proof.
  induction d as [|[k' v'] d IH]; simpl; [discriminate|].
  destruct (str_eqb k' k) eqn:E.
  - apply str_eqb_eq in E. intros G; injection G as ->. left. congruence.
  - intros G. right. apply IH. exact G.
Qed.

Lemma merge_key_none (s : str) (kvs : list (str * json)) :
  fold_left (merge_key s) kvs None = None.
Proof. induction kvs as [|kv kvs IH]; [reflexivity | exact IH]. Qed.

Lemma merge_section_none (sds : list (str * list (str * json))) :
  fold_left merge_section sds None = None.
Proof. induction sds as [|sd sds IH]; [reflexivity | exact IH]. Qed.

Lemma fill_defaults_cons (k : str) (v : json) (kvs e : list (str * json)) :
  fill_defaults ((k, v) :: kvs) e
  = fill_defaults kvs (match Dict.get k e with
                       | Some _ => e
                       | None => Dict.set k v e
                       end).
Proof. reflexivity. Qed.

Lemma fill_sections_cons (s : str) (kvs : list (str * json))
    (defaults : list (str * list (str * json))) (d : list (str * json)) :
  fill_sections ((s, kvs) :: defaults) d
  = fill_sections defaults
      (match Dict.get s d with
       | Some (JDict e) => Dict.set s (JDict (fill_defaults kvs e)) d
       | Some _ => d
       | None => Dict.set s (JDict kvs) d
       end).
Proof. reflexivity. Qed.

Lemma fill_defaults_get (kvs : list (str * json)) :
  forall (e : list (str * json)) (k : str),
  Dict.get k (fill_defaults kvs e)
  = match Dict.get k e with
    | Some u => Some u
    | None => Dict.get k kvs
    end.
Proof.
  induction kvs as [|[k0 v0] kvs IH]; intros e k.
  - simpl. destruct (Dict.get k e); reflexivity.
  - rewrite fill_defaults_cons, IH.
    change (Dict.get k ((k0, v0) :: kvs))
      with (if str_eqb k0 k then Some v0 else Dict.get k kvs).
    destruct (Dict.get k0 e) as [u0|] eqn:G0.
    + destruct (Dict.get k e) as [u|] eqn:G; [reflexivity|].
      destruct (str_eqb k0 k) eqn:E; [|reflexivity].
      apply str_eqb_eq in E. congruence.
    + destruct (str_eqb k0 k) eqn:E.
      * apply str_eqb_eq in E. subst k0.
        rewrite dict_get_set_same, G0. reflexivity.
      * apply str_eqb_neq in E.
        rewrite dict_get_set_other by exact E. reflexivity.
Qed.

(** The keys loop on a section that is a dict. *)
Lemma merge_keys_dict (s : str) (kvs : list (str * json)) :
  forall d e, Dict.get s d = Some (JDict e) ->
  fold_left (merge_key s) kvs (Some (JDict d))
  = Some (JDict (Dict.set s (JDict (fill_defaults kvs e)) d)).
Proof.
  induction kvs as [|[k v] kvs IH]; intros d e G.
  - simpl. rewrite dict_set_same by exact G. reflexivity.
  - assert (Hstep :
      merge_key s (Some (JDict d)) (k, v)
      = Some (JDict (match Dict.get k e with
                     | Some _ => d
                     | None => Dict.set s (JDict (Dict.set k v e)) d
                     end))).
    { unfold merge_key. simpl. rewrite G. simpl.
      destruct (Dict.get k e); reflexivity. }
    change (fold_left (merge_key s) ((k, v) :: kvs) (Some (JDict d)))
      with (fold_left (merge_key s) kvs (merge_key s (Some (JDict d)) (k, v))).
    rewrite Hstep, fill_defaults_cons.
    destruct (Dict.get k e) as [u|] eqn:Gk.
    + apply IH. exact G.
    + rewrite (@IH (Dict.set s (JDict (Dict.set k v e)) d) (Dict.set k v e))
        by apply dict_get_set_same.
      rewrite dict_set_set. reflexivity.
Qed.

(** The sections loop on a document whose known sections are dicts. *)
Lemma merge_with_dicts (defaults : list (str * list (str * json))) :
  forall d, sections_are_dicts defaults d ->
  merge_with defaults (JDict d) = Some (JDict (fill_sections defaults d)).
Proof.
  unfold merge_with.
  induction defaults as [|[s kvs] defaults IH]; intros d Hwf; [reflexivity|].
  assert (Hrest : forall v1,
            (exists e1, v1 = JDict e1) ->
            sections_are_dicts defaults (Dict.set s v1 d)).
  { intros v1 Hv1 s' v' Hin G.
    destruct (str_eqb s s') eqn:E.
    - apply str_eqb_eq in E. subst s'.
      rewrite dict_get_set_same in G. injection G as <-. exact Hv1.
    - apply str_eqb_neq in E. rewrite dict_get_set_other in G by exact E.
      apply (Hwf s' v'); [right; exact Hin | exact G]. }
  change (fold_left merge_section ((s, kvs) :: defaults) (Some (JDict d)))
    with (fold_left merge_section defaults
            (merge_section (Some (JDict d)) (s, kvs))).
  rewrite fill_sections_cons.
  unfold merge_section. simpl key_in. simpl fst. simpl snd.
  destruct (Dict.get s d) as [v|] eqn:G.
  - destruct (Hwf s v (or_introl eq_refl) G) as [e ->].
    rewrite (@merge_keys_dict s kvs d e G).
    apply IH. apply Hrest. eauto.
  - simpl setitem. apply IH. apply Hrest. eauto.
Qed.

Lemma fill_sections_get (defaults : list (str * list (str * json))) :
  NoDup (map fst defaults) ->
  forall d s,
  Dict.get s (fill_sections defaults d)
  = match Dict.get s defaults with
    | None => Dict.get s d
    | Some kvs =>
        match Dict.get s d with
        | Some (JDict e) => Some (JDict (fill_defaults kvs e))
        | Some v => Some v
        | None => Some (JDict kvs)
        end
    end.
Proof.
  induction defaults as [|[s0 kvs0] defaults IH]; intros Hnd d s;
    [reflexivity|].
  inversion Hnd as [|? ? Hfresh Hnd']; subst.
  rewrite fill_sections_cons, (IH Hnd').
  change (Dict.get s ((s0, kvs0) :: defaults))
    with (if str_eqb s0 s then Some kvs0 else Dict.get s defaults).
  destruct (str_eqb s0 s) eqn:E.
  - apply str_eqb_eq in E. subst s0.
    rewrite (@dict_get_none _ s defaults Hfresh).
    destruct (Dict.get s d) as [[| | | | |e]|] eqn:G;
      try exact G; apply dict_get_set_same.
  - apply str_eqb_neq in E.
    assert (G1 : forall d1 : list (str * json),
              (d1 = d \/ exists v1, d1 = Dict.set s0 v1 d) ->
              Dict.get s d1 = Dict.get s d).
    { intros d1 [->|[v1 ->]]; [reflexivity|].
      apply dict_get_set_other. exact E. }
    rewrite G1; [reflexivity|].
    destruct (Dict.get s0 d) as [[| | | | |e]|]; eauto.
Qed.

Lemma default_config_sections_distinct : NoDup (map fst default_config).
Proof.
  vm_compute.
  repeat (constructor; [simpl; intuition discriminate|]). constructor.
Qed.

Lemma dict_get_key_in {V} (k : str) (v : V) (d : Dict.dict V) :
  Dict.get k d = Some v -> In k (map fst d).
Proof.
  intros G. apply dict_get_in in G. apply (in_map fst) in G. exact G.
Qed.

(** X21: for a configuration file that is a dict whose known sections are
    dicts, every default key of every default section is present after
    loading, with the file's value where the file has one and the default
    otherwise. *)
Theorem load_config_fills_defaults (d : list (str * json)) :
  sections_are_dicts default_config d ->
  forall s kvs k v,
  Dict.get s default_config = Some kvs -> Dict.get k kvs = Some v ->
  lookup2 (load_config (Some (JDict d))) s k
  = Some (match lookup2 (JDict d) s k with
          | Some u => u
          | None => v
          end).
Proof.
  intros Hwf s kvs k v Gs Gk. unfold load_config.
  rewrite (@merge_with_dicts default_config d Hwf).
  unfold lookup2. cbn [getitem].
  rewrite (@fill_sections_get default_config default_config_sections_distinct).
  rewrite Gs.
  destruct (Dict.get s d) as [sec|] eqn:G.
  - destruct (Hwf s sec (@dict_get_key_in _ _ _ _ Gs) G) as [e ->].
    cbn [getitem]. rewrite fill_defaults_get.
    destruct (Dict.get k e); [reflexivity | exact Gk].
  - cbn [getitem]. exact Gk.
Qed.

(** X22: under the same condition nothing of the file is lost: a section
    that is not a default one is kept as it is, and so is every key of a
    default section that is not a default key. *)
Theorem load_config_keeps_unknown (d : list (str * json)) :
  sections_are_dicts default_config d ->
  (forall s, Dict.get s default_config = None ->
     getitem (load_config (Some (JDict d))) s = Dict.get s d)
  /\ (forall s kvs k,
        Dict.get s default_config = Some kvs -> Dict.get k kvs = None ->
        lookup2 (load_config (Some (JDict d))) s k = lookup2 (JDict d) s k).
Proof.
  intros Hwf. unfold load_config.
  rewrite (@merge_with_dicts default_config d Hwf). split.
  - intros s Gs. cbn [getitem].
    rewrite (@fill_sections_get default_config default_config_sections_distinct).
    rewrite Gs. reflexivity.
  - intros s kvs k Gs Gk. unfold lookup2. cbn [getitem].
    rewrite (@fill_sections_get default_config default_config_sections_distinct).
    rewrite Gs.
    destruct (Dict.get s d) as [sec|] eqn:G.
    + destruct (Hwf s sec (@dict_get_key_in _ _ _ _ Gs) G) as [e ->].
      cbn [getitem]. rewrite fill_defaults_get.
      destruct (Dict.get k e); [reflexivity | exact Gk].
    + cbn [getitem]. exact Gk.
Qed.

End ConfigFacts.

Section ConfigFallback.

Import Config.

Lemma merge_key_fold_cons (s : str) (kv : str * json)
    (kvs : list (str * json)) (c : option json) :
  fold_left (merge_key s) (kv :: kvs) c
  = fold_left (merge_key s) kvs (merge_key s c kv).
Proof. reflexivity. Qed.

Lemma merge_section_fold_cons (sd : str * list (str * json))
    (sds : list (str * list (str * json))) (c : option json) :
  fold_left merge_section (sd :: sds) c
  = fold_left merge_section sds (merge_section c sd).
Proof. reflexivity. Qed.

(** A document that is not a dict makes the first turn of the loop raise. *)
Lemma merge_section_nondict (c : json) (sd : str * list (str * json)) :
  (forall d, c <> JDict d) -> snd sd <> [] ->
  merge_section (Some c) sd = None.
Proof.
  intros Hc Hne. unfold merge_section.
  destruct c as [| b | n | s0 | l | d]; try reflexivity.
  - cbn [key_in]. destruct (contains (fst sd) s0); [|reflexivity].
    destruct (snd sd) as [|kv kvs]; [congruence|].
    rewrite merge_key_fold_cons. apply merge_key_none.
  - cbn [key_in]. destruct (existsb _ l); [|reflexivity].
    destruct (snd sd) as [|kv kvs]; [congruence|].
    rewrite merge_key_fold_cons. apply merge_key_none.
  - exfalso. apply (Hc d). reflexivity.
Qed.

Lemma merge_key_step (s : str) (d : list (str * json)) (kv : str * json) :
  merge_key s (Some (JDict d)) kv = None
  \/ merge_key s (Some (JDict d)) kv = Some (JDict d)
  \/ exists sec', merge_key s (Some (JDict d)) kv
                  = Some (JDict (Dict.set s sec' d)).
Proof.
  unfold merge_key. cbn [getitem].
  destruct (Dict.get s d) as [sec|]; [|left; reflexivity].
  destruct (key_in (fst kv) sec) as [[|]|]; [right; left; reflexivity | |
                                             left; reflexivity].
  destruct (setitem sec (fst kv) (snd kv)) as [sec'|]; [|left; reflexivity].
  right. right. exists sec'. reflexivity.
Qed.

Lemma merge_key_scalar (s : str) (d : list (str * json)) (v : json)
    (kv : str * json) :
  Dict.get s d = Some v -> is_scalar v = true ->
  merge_key s (Some (JDict d)) kv = None.
Proof.
  intros G Hv. unfold merge_key. cbn [getitem]. rewrite G.
  destruct v; try discriminate Hv; reflexivity.
Qed.

(** The keys loop of one section leaves the other sections alone. *)
Lemma merge_keys_other (s : str) (kvs : list (str * json)) :
  forall d,
  fold_left (merge_key s) kvs (Some (JDict d)) = None
  \/ exists d1,
       fold_left (merge_key s) kvs (Some (JDict d)) = Some (JDict d1)
       /\ forall s', s <> s' -> Dict.get s' d1 = Dict.get s' d.
Proof.
  induction kvs as [|kv kvs IH]; intros d.
  - right. exists d. auto.
  - rewrite merge_key_fold_cons.
    destruct (merge_key_step s d kv) as [E|[E|[sec' E]]]; rewrite E.
    + left. apply merge_key_none.
    + apply IH.
    + destruct (IH (Dict.set s sec' d)) as [En|[d1 [En Hd1]]];
        [left; exact En|].
      right. exists d1. split; [exact En|].
      intros s' Hs. rewrite (Hd1 s' Hs). apply dict_get_set_other. exact Hs.
Qed.

Lemma merge_section_other (d : list (str * json))
    (sd : str * list (str * json)) :
  merge_section (Some (JDict d)) sd = None
  \/ exists d1,
       merge_section (Some (JDict d)) sd = Some (JDict d1)
       /\ forall s', fst sd <> s' -> Dict.get s' d1 = Dict.get s' d.
Proof.
  unfold merge_section. cbn [key_in].
  destruct (Dict.get (fst sd) d).
  - apply merge_keys_other.
  - right. cbn [setitem]. eexists. split; [reflexivity|].
    intros s' Hs. apply dict_get_set_other. exact Hs.
Qed.

(** A known section that is null, a boolean or a number makes the loop
    raise, whatever else the document holds. *)
Lemma merge_with_scalar_section (defaults : list (str * list (str * json))) :
  forall d s kvs v,
  In (s, kvs) defaults -> kvs <> [] ->
  Dict.get s d = Some v -> is_scalar v = true ->
  fold_left merge_section defaults (Some (JDict d)) = None.
Proof.
  induction defaults as [|[s1 kvs1] defaults IH]; intros d s kvs v Hin Hne G Hv;
    [destruct Hin|].
  rewrite merge_section_fold_cons.
  destruct (str_eqb s1 s) eqn:E.
  - apply str_eqb_eq in E. subst s1.
    assert (Hstep : merge_section (Some (JDict d)) (s, kvs1)
                    = match kvs1 with
                      | [] => Some (JDict d)
                      | _ :: _ => None
                      end).
    { unfold merge_section. cbn [key_in fst snd]. rewrite G.
      destruct kvs1 as [|kv kvs1]; [reflexivity|].
      rewrite merge_key_fold_cons.
      rewrite (@merge_key_scalar s d v kv G Hv). apply merge_key_none. }
    rewrite Hstep. destruct kvs1 as [|kv kvs1]; [|apply merge_section_none].
    destruct Hin as [Hin|Hin]; [injection Hin as <-; congruence|].
    apply (IH d s kvs v); assumption.
  - apply str_eqb_neq in E.
    destruct Hin as [Hin|Hin]; [injection Hin as -> ->; congruence|].
    destruct (merge_section_other d (s1, kvs1)) as [En|[d1 [En Hd1]]];
      rewrite En; [apply merge_section_none|].
    apply (IH d1 s kvs v); try assumption.
    rewrite (Hd1 s E). exact G.
Qed.

Lemma default_config_sections_nonempty (s : str) (kvs : list (str * json)) :
  In (s, kvs) default_config -> kvs <> [].
Proof.
  unfold default_config. simpl.
  intros [H|[H|[H|[H|[]]]]]; injection H as <- <-; discriminate.
Qed.

(** X23: a configuration file that is not a dict, or one in which a known
    section is null, a boolean or a number, is discarded as a whole: all
    settings are the defaults, also those the file gave in other
    sections. *)
Theorem load_config_falls_back :
  (forall c, (forall d, c <> JDict d) -> load_config (Some c) = default_json)
  /\ (forall d s kvs v,
        Dict.get s default_config = Some kvs ->
        Dict.get s d = Some v -> is_scalar v = true ->
        load_config (Some (JDict d)) = default_json).
Proof.
  split.
  - intros c Hc. unfold load_config, merge_with.
    unfold default_config at 1. rewrite merge_section_fold_cons.
    rewrite merge_section_nondict; [|exact Hc | discriminate].
    rewrite merge_section_none. reflexivity.
  - intros d s kvs v Gs G Hv. unfold load_config, merge_with.
    rewrite (@merge_with_scalar_section default_config d s kvs v);
      [reflexivity | | | exact G | exact Hv].
    + apply dict_get_in. exact Gs.
    + apply (@default_config_sections_nonempty s). apply dict_get_in. exact Gs.
Qed.

End ConfigFallback.

Section ConfigFixtures.

Import Config.

(** The file of [test_load_config_file_exists]. *)
Lemma load_config_fills_defaults_witness :
  let d := [(lit "dns_settings",
             JDict [(lit "timeout", JNum (lit "15"));
                    (lit "retries", JNum (lit "5"))])] in
  lookup2 (load_config (Some (JDict d))) (lit "dns_settings") (lit "timeout")
  = Some (JNum (lit "15")).
Proof.
  intros d.
  apply (@load_config_fills_defaults d) with
    (kvs := [(lit "timeout", JNum (lit "10"));
             (lit "retries", JNum (lit "3"));
             (lit "default_nameserver", JNull);
             (lit "record_types",
              JList (map (fun t => JStr (lit t))
                       ["A"; "AAAA"; "CNAME"; "MX"; "NS"; "TXT"; "SOA"]%string))])
    (v := JNum (lit "10")).
  - intros s v _ G. unfold d in G. cbn [Dict.get] in G.
    destruct (str_eqb (lit "dns_settings") s); [|discriminate G].
    injection G as <-. eauto.
  - reflexivity.
  - reflexivity.
Defined.

Lemma load_config_keeps_unknown_witness :
  let d := [(lit "plugins", JList [JStr (lit "x")]);
            (lit "dns_settings", JDict [(lit "edns", JBool true)])] in
  getitem (load_config (Some (JDict d))) (lit "plugins")
  = Some (JList [JStr (lit "x")]).
Proof.
  intros d.
  refine (proj1 (@load_config_keeps_unknown d _) (lit "plugins") _).
  - intros s v Hin G. unfold d in G. cbn [Dict.get] in G.
    destruct (str_eqb (lit "plugins") s) eqn:E.
    + apply str_eqb_eq in E. subst s.
      vm_compute in Hin. exfalso.
      repeat (destruct Hin as [Hin|Hin]; [discriminate Hin|]). exact Hin.
    + destruct (str_eqb (lit "dns_settings") s); [|discriminate G].
      injection G as <-. eauto.
  - reflexivity.
Defined.

Lemma load_config_falls_back_witness :
  load_config (Some (JList [JStr (lit "dns_settings")])) = default_json
  /\ load_config
       (Some (JDict [(lit "dns_settings", JDict [(lit "timeout", JNum (lit "15"))]);
                     (lit "logging", JNull)]))
     = default_json.
Proof.
  split.
  - apply (proj1 load_config_falls_back). intros d H. discriminate H.
  - apply (proj2 load_config_falls_back) with
      (s := lit "logging")
      (kvs := [(lit "level", JStr (lit "INFO"));
               (lit "file", JStr (lit "dns_lookup.log"));
               (lit "max_size_mb", JNum (lit "10"));
               (lit "backup_count", JNum (lit "3"));
               (lit "format",
                JStr (lit "%(asctime)s - %(name)s - %(levelname)s - %(message)s"))])
      (v := JNull); reflexivity.
Defined.

End ConfigFixtures.

(** ** [clean_domain] and a leading scheme *)

Section SchemeFacts.

Lemma lstrip_app_plain (a q : str) (c : char) :
  isspace c = false -> lstrip (a ++ c :: q) = lstrip a ++ c :: q.
Proof.
  intros Hc. induction a as [|x a IH]; simpl.
  - rewrite Hc. reflexivity.
  - destruct (isspace x); [exact IH | reflexivity].
Qed.

(** Trailing whitespace is stripped behind a prefix that ends in a
    non-blank character. *)
Lemma rstrip_after_prefix (p s : str) (c : char) :
  isspace c = false -> rstrip ((p ++ [c]) ++ s) = (p ++ [c]) ++ rstrip s.
Proof.
  intros Hc. unfold rstrip.
  rewrite rev_app_distr, rev_app_distr. simpl rev at 2. simpl app at 2.
  rewrite (lstrip_app_plain (rev s) (rev p) c Hc).
  rewrite rev_app_distr. simpl. rewrite rev_involutive.
  rewrite <- app_assoc. reflexivity.
Qed.

(** X24: a leading ["http://"] or ["https://"] makes no difference: the
    input with the scheme in front is cleaned to the same domain as the
    input without it (for an input that does not begin with whitespace). *)
Theorem clean_domain_ignores_scheme (s : str) :
  lstrip s = s ->
  clean_domain (Some (lit "http://" ++ s)) = clean_domain (Some s)
  /\ clean_domain (Some (lit "https://" ++ s)) = clean_domain (Some s).
Proof.
  intros Hs.
  assert (Hstrip : strip s = rstrip s) by (unfold strip; rewrite Hs; reflexivity).
  rewrite !clean_domain_chain, Hstrip. split.
  - assert (E : strip (lit "http://" ++ s) = lit "http://" ++ rstrip s).
    { unfold strip. change (lstrip (lit "http://" ++ s)) with (lit "http://" ++ s).
      apply (rstrip_after_prefix (lit "http:/") s 47%N). reflexivity. }
    rewrite E.
    rewrite (@replace_hit (lit "http://") [] (lit "http://" ++ rstrip s));
      [reflexivity | discriminate | reflexivity].
  - assert (E : strip (lit "https://" ++ s) = lit "https://" ++ rstrip s).
    { unfold strip. change (lstrip (lit "https://" ++ s)) with (lit "https://" ++ s).
      apply (rstrip_after_prefix (lit "https:/") s 47%N). reflexivity. }
    rewrite E.
    assert (E1 : replace (lit "http://") [] (lit "https://" ++ rstrip s)
                 = lit "https://" ++ replace (lit "http://") [] (rstrip s)).
    { change (lit "https://" ++ rstrip s)
        with (104 :: 116 :: 116 :: 112 :: 115 :: 58 :: 47 :: 47
              :: rstrip s)%N.
      repeat (rewrite replace_miss by reflexivity). reflexivity. }
    rewrite E1.
    rewrite (@replace_hit (lit "https://") []
               (lit "https://" ++ replace (lit "http://") [] (rstrip s)));
      [reflexivity | discriminate | reflexivity].
Qed.

Lemma clean_domain_ignores_scheme_witness :
  clean_domain (Some (lit "https://" ++ lit "www.example.com/path"))
  = clean_domain (Some (lit "www.example.com/path")).
Proof.
  apply (@clean_domain_ignores_scheme (lit "www.example.com/path")).
  reflexivity.
Defined.

End SchemeFacts.
